(** * DocKeeper web client: API wrappers, session context and dashboard rows

    A shallow embedding of the TypeScript sources

    - [lib/auth.ts]                 (the auth client: login, getCurrentUser, signup),
    - [dockeeper-web/lib/api.ts]    (the document client used by the dashboard),
    - [src/lib/api.ts]              (the older document client at the repository root),
    - [lib/auth-context.tsx]        (the session context: AuthProvider),
    - [dockeeper-web/app/page.tsx]  (the row list of the dashboard's search tab),

    followed by the properties of the specification that concern them. *)

From Stdlib Require Import String Ascii List Bool Arith NArith Lia Permutation.
Import ListNotations.
Local Open Scope string_scope.
Local Open Scope list_scope.

Set Implicit Arguments.

(** ** JavaScript values that the sources rely on *)

(** A thrown [Error] is modelled by its [message]; a promise that settled by
    a value of [result]. *)
Inductive result (A : Type) : Type :=
| Ok (a : A)
| Err (message : string).
Arguments Ok {A} a.
Arguments Err {A} message.

(** Truthiness of a string: every string but the empty one. *)
Definition truthy (s : string) : bool :=
  match s with
  | EmptyString => false
  | String _ _ => true
  end.

(** [x || fallback] where [x] is [undefined] ([None]) or a string. *)
Definition or_else (x : option string) (fallback : string) : string :=
  match x with
  | Some s => if truthy s then s else fallback
  | None => fallback
  end.

(** ** HTTP responses as [fetch] delivers them *)
Module Http.

(** A JSON value. A number stands as the string that [String] gives for
    it, so that zero (and minus zero) is ["0"]. *)
#[local] Unset Elimination Schemes.
Inductive jsvalue : Type :=
| JNull
| JBool (b : bool)
| JNumber (shown : string)
| JString (s : string)
| JArray (items : list jsvalue)
| JObject (props : list (string * jsvalue)).
#[local] Set Elimination Schemes.

(** What reading [data.detail] gives: a [TypeError] when [data] is
    [null], [undefined] when [data] has no such member, or the member. *)
Inductive member : Type :=
| Unreadable (message : string)
| Absent
| Present (v : jsvalue).

(** The parsed JSON body [data]: what reading its [detail] member gives,
    and the value seen at the type [P] that the wrapper declares for it. *)
Record Data (P : Type) : Type := {
  detail : member;
  payload : P
}.

(** Truthiness of a JSON jsvalue. *)
Definition js_truthy (v : jsvalue) : bool :=
  match v with
  | JNull => false
  | JBool b => b
  | JNumber shown => negb (String.eqb shown "0")
  | JString s => truthy s
  | JArray _ => true
  | JObject _ => true
  end.

(** [String(v)], which [new Error(v)] takes as its message: an array
    is its items joined by commas, [null] items giving nothing. *)
Fixpoint js_to_string (v : jsvalue) : string :=
  match v with
  | JNull => "null"
  | JBool true => "true"
  | JBool false => "false"
  | JNumber shown => shown
  | JString s => s
  | JArray items =>
      (fix join (l : list jsvalue) : string :=
         match l with
         | [] => ""
         | x :: rest =>
             ((match x with JNull => "" | _ => js_to_string x end)
              ++ match rest with
                 | [] => ""
                 | _ :: _ => "," ++ join rest
                 end)%string
         end) items
  | JObject _ => "[object Object]"
  end.

(** The message of what [throw new Error(data.detail || fallback)]
    throws: the [TypeError] of the read, or the error built. *)
Definition thrown (P : Type) (data : Data P) (fallback : string) : string :=
  match detail data with
  | Unreadable message => message
  | Absent => fallback
  | Present v => if js_truthy v then js_to_string v else fallback
  end.

(** A string member, or none. *)
Definition string_member (d : option string) : member :=
  match d with
  | Some s => Present (JString s)
  | None => Absent
  end.

(** A response: the [ok] flag (status in 200..299) and the outcome of
    [response.json()], which rejects when the body is not JSON. *)
Record Response (P : Type) : Type := {
  ok : bool;
  json : result (Data P)
}.

(** [await fetch(...)]: the request could not complete, or a response. *)
Inductive fetch_outcome (P : Type) : Type :=
| FetchRejected (message : string)
| FetchResponse (response : Response P).
Arguments FetchRejected {P} message.
Arguments FetchResponse {P} response.

End Http.
Import Http.

(** ** The auth client, [lib/auth.ts] *)
Module AuthClient.

Record LoginResponse : Type := {
  user_id : string;
  access_token : string
}.

Record User : Type := {
  id : string;
  email : string
}.

Record SignupResponse : Type := {
  message : string
}.

(** The three functions share one shape: [data] is read first, then
    [response.ok] is tested; the [catch] logs and re-throws, so it does not
    change what the caller receives. *)
Definition after_fetch (P : Type) (fallback : string)
           (o : fetch_outcome P) : result P :=
  match o with
  | FetchRejected e => Err e
  | FetchResponse response =>
      match json response with
      | Err e => Err e
      | Ok data =>
          if negb (ok response)
          then Err (thrown data fallback)
          else Ok (payload data)
      end
  end.

Definition login : fetch_outcome LoginResponse -> result LoginResponse :=
  after_fetch "Login failed".

Definition getCurrentUser : fetch_outcome User -> result User :=
  after_fetch "Failed to get user info".

Definition signup : fetch_outcome SignupResponse -> result SignupResponse :=
  after_fetch "Signup failed".

End AuthClient.

(** ** The document client of the dashboard, [dockeeper-web/lib/api.ts] *)
Module WebApi.

(** Here [response.ok] is tested first; the body is read as [data] on the
    failure branch and returned as it is on the success branch. *)
Definition after_fetch (P : Type) (fallback : string)
           (o : fetch_outcome P) : result P :=
  match o with
  | FetchRejected e => Err e
  | FetchResponse response =>
      if negb (ok response)
      then match json response with
           | Err e => Err e
           | Ok data => Err (thrown data fallback)
           end
      else match json response with
           | Err e => Err e
           | Ok data => Ok (payload data)
           end
  end.

Section Wrappers.
Variables Doc Docs Results Categorized : Type.

Definition processDocument : fetch_outcome Doc -> result Doc :=
  after_fetch "Failed to process document".

Definition getDocuments : fetch_outcome Docs -> result Docs :=
  after_fetch "Failed to fetch documents".

Definition searchDocuments : fetch_outcome Results -> result Results :=
  after_fetch "Failed to search documents".

Definition getCategorizedFields
  : fetch_outcome Categorized -> result Categorized :=
  after_fetch "Failed to categorize fields".
End Wrappers.

End WebApi.

(** ** The document client at the repository root, [src/lib/api.ts] *)
Module LibApi.

(** On a failed response the body is not read at all. *)
Definition after_fetch (P : Type) (fallback : string)
           (o : fetch_outcome P) : result P :=
  match o with
  | FetchRejected e => Err e
  | FetchResponse response =>
      if negb (ok response)
      then Err fallback
      else match json response with
           | Err e => Err e
           | Ok data => Ok (payload data)
           end
  end.

Section Wrappers.
Variables Doc Docs Results : Type.

Definition processDocument : fetch_outcome Doc -> result Doc :=
  after_fetch "Failed to process document".

Definition getDocuments : fetch_outcome Docs -> result Docs :=
  after_fetch "Failed to fetch documents".

Definition searchDocuments : fetch_outcome Results -> result Results :=
  after_fetch "Failed to search documents".
End Wrappers.

End LibApi.




(** A failed response whose body is the JSON object [{detail: d, ...}]. *)
Definition failed (P : Type) (d : option string) (x : P) : fetch_outcome P :=
  FetchResponse {| ok := false;
                   json := Ok {| detail := string_member d; payload := x |} |}.

(** ** The session context, [lib/auth-context.tsx] *)
Module AuthContext.

Import AuthClient.

(** *** Programs

    A handler of the provider is a program over the effects the file uses:
    the three React state setters, the [localStorage] entry ['token'],
    [console.error], and the three requests of the auth client, at which
    an [async] handler is suspended until the request settles. *)

Inductive action : Type :=
| SetToken (t : option string)
| SetUser (u : option User)
| SetIsAuthenticated (b : bool)
| SetItem (t : string)
| RemoveItem
| ConsoleError (label : string).

Inductive request : Type :=
| ReqLogin (email password : string)
| ReqSignup (email password : string)
| ReqMe (token : string).

Definition payload_of (q : request) : Type :=
  match q with
  | ReqLogin _ _ => LoginResponse
  | ReqSignup _ _ => SignupResponse
  | ReqMe _ => User
  end.

Definition reply (q : request) : Type := fetch_outcome (payload_of q).

Inductive prog (A : Type) : Type :=
| Ret (a : A)
| Throw (e : string)
| Act (a : action) (k : prog A)
| GetItem (k : option string -> prog A)
| Fetch (q : request) (k : reply q -> prog A).
Arguments Ret {A} a.
Arguments Throw {A} e.
Arguments Act {A} a k.
Arguments GetItem {A} k.
Arguments Fetch {A} q k.

Fixpoint bind (A B : Type) (p : prog A) (f : A -> prog B) : prog B :=
  match p with
  | Ret a => f a
  | Throw e => Throw e
  | Act a k => Act a (bind k f)
  | GetItem k => GetItem (fun s => bind (k s) f)
  | Fetch q k => Fetch q (fun r => bind (k r) f)
  end.

(** [try { p } catch (error) { h error }] *)
Fixpoint try_catch (A : Type) (p : prog A) (h : string -> prog A) : prog A :=
  match p with
  | Ret a => Ret a
  | Throw e => h e
  | Act a k => Act a (try_catch k h)
  | GetItem k => GetItem (fun s => try_catch (k s) h)
  | Fetch q k => Fetch q (fun r => try_catch (k r) h)
  end.

Declare Scope prog_scope.
Delimit Scope prog_scope with prog.
Notation "x <- p ;; q" := (bind p (fun x => q))
  (at level 61, p at next level, right associativity) : prog_scope.
Notation "p ;; q" := (bind p (fun _ => q))
  (at level 61, right associativity) : prog_scope.
Local Open Scope prog_scope.

Definition act (a : action) : prog unit := Act a (Ret tt).

(** A call of the auth client: the request, then the wrapper's own
    treatment of the response; its [catch] logs before it re-throws. *)
Definition call (q : request) (label : string)
           (wrapper : reply q -> result (payload_of q))
  : prog (payload_of q) :=
  Fetch q (fun o =>
    match wrapper o with
    | Ok data => Ret data
    | Err e => Act (ConsoleError label) (Throw e)
    end).
Arguments call q label wrapper : clear implicits.

Definition auth_login (email password : string) : prog LoginResponse :=
  call (ReqLogin email password) "Login error:" AuthClient.login.

Definition auth_getCurrentUser (token : string) : prog User :=
  call (ReqMe token) "Get user error:" AuthClient.getCurrentUser.

Definition auth_signup (email password : string) : prog SignupResponse :=
  call (ReqSignup email password) "Signup error:" AuthClient.signup.

(** *** The handlers of [AuthProvider] *)

Definition handleLogout : prog unit :=
  act (SetToken None) ;;
  act (SetUser None) ;;
  act (SetIsAuthenticated false) ;;
  act RemoveItem.

Definition fetchUser (accessToken : string) : prog unit :=
  try_catch
    (userData <- auth_getCurrentUser accessToken ;;
     act (SetUser (Some {| id := id userData; email := email userData |})))
    (fun error =>
       act (ConsoleError "Failed to fetch user:") ;;
       handleLogout ;;
       Throw error).

(** The part of [handleLogin]'s [try] block that follows the login call. *)
Definition login_verify_commit (r : LoginResponse) : prog unit :=
  fetchUser (access_token r) ;;
  act (SetToken (Some (access_token r))) ;;
  act (SetItem (access_token r)) ;;
  act (SetIsAuthenticated true).

Definition login_catch (error : string) : prog unit :=
  handleLogout ;; Throw error.

Definition handleLogin (email password : string) : prog unit :=
  try_catch
    (r <- auth_login email password ;; login_verify_commit r)
    login_catch.

Definition rethrow (error : string) : prog unit := Throw error.

Definition handleSignup (email password : string) : prog unit :=
  try_catch
    (auth_signup email password ;; handleLogin email password)
    rethrow.

(** The effect that runs once when the provider mounts; the promise of
    [fetchUser] is not awaited, its [.catch] handler swallows the error. *)
Definition hydrate (savedToken : string) : prog unit :=
  try_catch (fetchUser savedToken) (fun _ => handleLogout).

Definition mount : prog unit :=
  GetItem (fun savedToken =>
    match savedToken with
    | Some t =>
        if truthy t
        then act (SetToken (Some t)) ;;
             act (SetIsAuthenticated true) ;;
             hydrate t
        else Ret tt
    | None => Ret tt
    end).

(** *** The store the programs act on *)

Record World : Type := {
  token : option string;
  user : option User;
  isAuthenticated : bool;
  storage : option string     (* localStorage entry 'token' *)
}.

(** [useState(false)], [useState(null)], [useState(null)]. *)
Definition initial (stored : option string) : World :=
  {| token := None; user := None; isAuthenticated := false;
     storage := stored |}.

Definition apply_action (a : action) (w : World) : World :=
  match a with
  | SetToken t =>
      {| token := t; user := user w;
         isAuthenticated := isAuthenticated w; storage := storage w |}
  | SetUser u =>
      {| token := token w; user := u;
         isAuthenticated := isAuthenticated w; storage := storage w |}
  | SetIsAuthenticated b =>
      {| token := token w; user := user w;
         isAuthenticated := b; storage := storage w |}
  | SetItem t =>
      {| token := token w; user := user w;
         isAuthenticated := isAuthenticated w; storage := Some t |}
  | RemoveItem =>
      {| token := token w; user := user w;
         isAuthenticated := isAuthenticated w; storage := None |}
  | ConsoleError _ => w
  end.

(** The three named states of the session. *)
Definition Unauthenticated (w : World) : Prop :=
  token w = None /\ user w = None /\ isAuthenticated w = false.

Definition Authenticated (w : World) : Prop :=
  isAuthenticated w = true /\ token w <> None /\ user w <> None.

(** *** Running one handler to completion

    The replies of the backend to the (at most one) request of each kind
    that a handler makes. *)
Record replies : Type := {
  login_reply : fetch_outcome LoginResponse;
  signup_reply : fetch_outcome SignupResponse;
  me_reply : fetch_outcome User
}.

Definition pick (rs : replies) (q : request) : reply q :=
  match q with
  | ReqLogin _ _ => login_reply rs
  | ReqSignup _ _ => signup_reply rs
  | ReqMe _ => me_reply rs
  end.

Inductive event : Type :=
| Did (a : action)
| Read                      (* localStorage.getItem('token') *)
| Sent (q : request).

Record run_result (A : Type) : Type := {
  final : World;
  trace : list event;
  outcome : result A
}.

Definition logged (A : Type) (ev : event) (r : run_result A) : run_result A :=
  {| final := final r; trace := ev :: trace r; outcome := outcome r |}.

Fixpoint run (A : Type) (rs : replies) (p : prog A) (w : World)
  : run_result A :=
  match p with
  | Ret a => {| final := w; trace := []; outcome := Ok a |}
  | Throw e => {| final := w; trace := []; outcome := Err e |}
  | Act a k => logged (Did a) (run rs k (apply_action a w))
  | GetItem k => logged Read (run rs (k (storage w)) w)
  | Fetch q k => logged (Sent q) (run rs (k (pick rs q)) w)
  end.

(** *** Handlers in flight

    Handlers run on one thread. A handler runs without interruption up
    to its next request and is suspended there; React applies the state
    updates of such a run together, so the states a render can observe
    are those in which every handler in flight is suspended. A request
    settles as a whole (response and body), and the continuation of
    [await fetchUser(...)] runs in the turn in which [fetchUser] returns. *)

Inductive segment (A : Type) : Type :=
| Finished (r : result A)
| Suspended (p : prog A).       (* [p] starts with a request *)
Arguments Finished {A} r.
Arguments Suspended {A} p.

Fixpoint run_sync (A : Type) (p : prog A) (w : World) : World * segment A :=
  match p with
  | Ret a => (w, Finished (Ok a))
  | Throw e => (w, Finished (Err e))
  | Act a k => run_sync k (apply_action a w)
  | GetItem k => run_sync (k (storage w)) w
  | Fetch q k => (w, Suspended (Fetch q k))
  end.

(** The request a suspended handler waits for settles. *)
Definition resume (A : Type) (rs : replies) (p : prog A) : prog A :=
  match p with
  | Fetch q k => k (pick rs q)
  | _ => p
  end.

Definition head_request (A : Type) (p : prog A) : option request :=
  match p with
  | Fetch q _ => Some q
  | _ => None
  end.

(** The token that the settling request verifies: the request is
    [getCurrentUser] for that token and the call succeeds. *)
Definition verifies (A : Type) (rs : replies) (p : prog A) : list string :=
  match head_request p with
  | Some (ReqMe t) =>
      match AuthClient.getCurrentUser (me_reply rs) with
      | Ok _ => [t]
      | Err _ => []
      end
  | _ => []
  end.

(** What the user interface can invoke on the context. *)
Inductive operation : Type :=
| Login (email password : string)
| Signup (email password : string)
| Logout.

Definition handler (op : operation) : prog unit :=
  match op with
  | Login email password => handleLogin email password
  | Signup email password => handleSignup email password
  | Logout => handleLogout
  end.

(** A configuration: the store, the tokens verified so far in this
    lifecycle (a record of history, not read by the code), and the
    suspended handlers. *)
Record Config : Type := {
  world : World;
  verified : list string;
  pool : list (prog unit)
}.

Definition still_pending (s : segment unit) : list (prog unit) :=
  match s with
  | Suspended p => [p]
  | Finished _ => []
  end.

Definition absorb (c : Config) (before after : list (prog unit))
           (newly : list string) (s : World * segment unit) : Config :=
  {| world := fst s;
     verified := newly ++ verified c;
     pool := before ++ still_pending (snd s) ++ after |}.

Inductive input : Type :=
| Invoke (op : operation)
| Settle (n : nat) (rs : replies).   (* the request of the n-th handler *)

Definition step (c : Config) (i : input) : option Config :=
  match i with
  | Invoke op =>
      Some (absorb c (pool c) [] [] (run_sync (handler op) (world c)))
  | Settle n rs =>
      match nth_error (pool c) n with
      | Some p =>
          Some (absorb c (firstn n (pool c)) (skipn (S n) (pool c))
                       (verifies rs p)
                       (run_sync (resume rs p) (world c)))
      | None => None
      end
  end.

Fixpoint steps (c : Config) (inputs : list input) : option Config :=
  match inputs with
  | [] => Some c
  | i :: inputs' =>
      match step c i with
      | Some c' => steps c' inputs'
      | None => None
      end
  end.

(** The application starts: empty state, then the mount effect. *)
Definition start (stored : option string) : Config :=
  absorb {| world := initial stored; verified := []; pool := [] |}
         [] [] [] (run_sync mount (initial stored)).

Definition reachable (c : Config) : Prop :=
  exists stored inputs, steps (start stored) inputs = Some c.

(** The startup verification of the stored token [t] is still in flight. *)
Definition hydrating (t : string) (c : Config) : Prop :=
  In (hydrate t) (pool c).

(** The token [t] has been verified in this lifecycle. *)
Definition verified_token (t : string) (c : Config) : Prop :=
  In t (verified c).

(** The session invariant in the words of the specification. *)
Definition authenticated_iff_verified (c : Config) : Prop :=
  isAuthenticated (world c) = true <->
  exists t, token (world c) = Some t /\ verified_token t c.

(** The store after [handleLogout]. *)
Definition cleared : World :=
  {| token := None; user := None; isAuthenticated := false;
     storage := None |}.

(** The store after a login committed [r] with the user record [u]. *)
Definition committed (r : LoginResponse) (u : User) : World :=
  {| token := Some (access_token r);
     user := Some {| id := id u; email := email u |};
     isAuthenticated := true;
     storage := Some (access_token r) |}.

(** The handlers that can be suspended: the startup verification, a login
    before and after its login call, a signup, and a login that runs
    inside a signup. *)
Inductive in_flight : prog unit -> Prop :=
| fl_hydrate t : in_flight (hydrate t)
| fl_login email password : in_flight (handleLogin email password)
| fl_verify r : in_flight (try_catch (login_verify_commit r) login_catch)
| fl_signup email password : in_flight (handleSignup email password)
| fl_inside p : in_flight p -> in_flight (try_catch p rethrow).

(** What holds of the session in every configuration: the flag is set
    exactly when a token is held, and a held token is verified or is the
    stored token whose startup verification has not settled yet. *)
Definition flag_iff_token (c : Config) : Prop :=
  isAuthenticated (world c) = true <-> token (world c) <> None.

Definition token_verified_or_hydrating (c : Config) : Prop :=
  forall t, token (world c) = Some t -> verified_token t c \/ hydrating t c.

Definition consistent (c : Config) : Prop :=
  Forall in_flight (pool c)
  /\ flag_iff_token c
  /\ token_verified_or_hydrating c.

(** What settling the request of a suspended handler [p] may do to the
    store: clear it; or leave token and flag as they are, and then a
    [getCurrentUser] request that settled has verified its token; or commit
    a token that this very request verified. *)
Definition settles_safely (p : prog unit) (rs : replies) (w : World) : Prop :=
  let r := run_sync (resume rs p) w in
  Forall in_flight (still_pending (snd r))
  /\ (fst r = cleared
      \/ (token (fst r) = token w
          /\ isAuthenticated (fst r) = isAuthenticated w
          /\ forall t, head_request p = Some (ReqMe t) ->
                       In t (verifies rs p))
      \/ (exists t, token (fst r) = Some t
                    /\ isAuthenticated (fst r) = true
                    /\ In t (verifies rs p))).

Definition inside (s : segment unit) : segment unit :=
  match s with
  | Finished r => Finished r
  | Suspended p => Suspended (try_catch p rethrow)
  end.

(** *** What a run does to durable storage *)

Definition storage_writes (tr : list event) : list string :=
  flat_map (fun ev => match ev with Did (SetItem t) => [t] | _ => [] end) tr.

Definition clears_storage (tr : list event) : bool :=
  existsb (fun ev => match ev with Did RemoveItem => true | _ => false end) tr.

Definition requests (tr : list event) : list request :=
  flat_map (fun ev => match ev with Sent q => [q] | _ => [] end) tr.

Definition succeeded (A : Type) (r : result A) : bool :=
  match r with
  | Ok _ => true
  | Err _ => false
  end.

End AuthContext.

(** ** The rows of the dashboard's search tab, [dockeeper-web/app/page.tsx] *)
Module Dashboard.

(** A value that the type declares an object and that may be missing at
    run time; the properties of an object are kept in creation order. *)
Inductive maybe_object : Type :=
| Undefined
| Null
| Object (props : list (string * string)).

Module Document.
Record t : Type := {
  id : string;
  file_name : string;
  document_type : string;
  pdf_url : option string;
  processed_at : string;
  fields : maybe_object
}.
End Document.

Module SearchResult.
Record t : Type := {
  field_name : string;
  field_value : string;
  document_name : string;
  pdf_url : option string
}.
End SearchResult.

(** *** [Object.entries]

    The own property keys of an ordinary object are enumerated with the
    array indices first, in ascending numeric order, then the other
    string keys in the order of their creation (ECMAScript,
    OrdinaryOwnPropertyKeys); [JSON.parse] creates the properties in the
    order of the text. An array index is the canonical decimal form of an
    integer from 0 to 2^32 - 2. So [Object.entries({Name: "X", "2024":
    "paid"})] is [[["2024", "paid"], ["Name", "X"]]]. *)

Definition digit_of (c : ascii) : option N :=
  let n := N_of_ascii c in
  if ((48 <=? n) && (n <=? 57))%N then Some (n - 48)%N else None.

Fixpoint decimal (s : string) (acc : N) : option N :=
  match s with
  | EmptyString => Some acc
  | String c s' =>
      match digit_of c with
      | Some d => decimal s' (10 * acc + d)%N
      | None => None
      end
  end.

Definition array_index (key : string) : option N :=
  match key with
  | EmptyString => None
  | String c rest =>
      if Ascii.eqb c "0" && truthy rest then None
      else match decimal key 0 with
           | Some n => if (n <=? 4294967294)%N then Some n else None
           | None => None
           end
  end.

Definition is_named (kv : string * string) : bool :=
  match array_index (fst kv) with
  | Some _ => false
  | None => true
  end.

Fixpoint insert_by_index (e : N * (string * string))
         (l : list (N * (string * string))) : list (N * (string * string)) :=
  match l with
  | [] => [e]
  | e' :: l' =>
      if (fst e <? fst e')%N then e :: l else e' :: insert_by_index e l'
  end.

Definition indexed (props : list (string * string))
  : list (N * (string * string)) :=
  fold_right insert_by_index []
    (flat_map (fun kv => match array_index (fst kv) with
                         | Some n => [(n, kv)]
                         | None => []
                         end) props).

Definition Object_entries (props : list (string * string))
  : list (string * string) :=
  map snd (indexed props) ++ filter is_named props.

(** *** The derived row list *)

(** [doc.fields || {}] *)
Definition or_empty (o : maybe_object) : list (string * string) :=
  match o with
  | Object props => props
  | Undefined | Null => []
  end.

Definition row (doc : Document.t) (entry : string * string)
  : SearchResult.t :=
  let '(field_name, field_value) := entry in
  {| SearchResult.field_name := field_name;
     SearchResult.field_value := field_value;
     SearchResult.document_name := Document.file_name doc;
     SearchResult.pdf_url := Document.pdf_url doc |}.

(** The list that the search tab maps over. *)
Definition displayedRows (searchTerm : string)
           (searchResults : list SearchResult.t)
           (documents : list Document.t) : list SearchResult.t :=
  if truthy searchTerm then searchResults
  else flat_map (fun doc =>
         map (row doc) (Object_entries (or_empty (Document.fields doc))))
       documents.

(** *** The flattening as the specification words it

    For each document in list order, for each field entry of its map in
    insertion order, one row tagged with the document's name and URL. *)
Definition insertion_order (o : maybe_object) : list (string * string) :=
  match o with
  | Object props => props
  | Undefined | Null => []
  end.

Definition spec_rows (documents : list Document.t) : list SearchResult.t :=
  concat (map (fun doc => map (row doc)
                            (insertion_order (Document.fields doc)))
              documents).

Definition field_names (doc : Document.t) : list string :=
  map fst (insertion_order (Document.fields doc)).

(** The documents of the specification's example. *)
Definition example_documents : list Document.t :=
  [ {| Document.id := "1"; Document.file_name := "a.pdf";
       Document.document_type := "form"; Document.pdf_url := None;
       Document.processed_at := "2024-01-01";
       Document.fields := Object [("Name", "X"); ("Email", "y@z.com")] |};
    {| Document.id := "2"; Document.file_name := "b.pdf";
       Document.document_type := "form"; Document.pdf_url := None;
       Document.processed_at := "2024-01-02";
       Document.fields := Object [("DOB", "2000-01-01")] |} ].

Definition example_rows : list SearchResult.t :=
  [ {| SearchResult.field_name := "Name"; SearchResult.field_value := "X";
       SearchResult.document_name := "a.pdf";
       SearchResult.pdf_url := None |};
    {| SearchResult.field_name := "Email";
       SearchResult.field_value := "y@z.com";
       SearchResult.document_name := "a.pdf";
       SearchResult.pdf_url := None |};
    {| SearchResult.field_name := "DOB";
       SearchResult.field_value := "2000-01-01";
       SearchResult.document_name := "b.pdf";
       SearchResult.pdf_url := None |} ].

(** A document with a field whose name is a number, as a form with
    numbered boxes yields. *)
Definition numbered_document : Document.t :=
  {| Document.id := "3"; Document.file_name := "c.pdf";
     Document.document_type := "form"; Document.pdf_url := None;
     Document.processed_at := "2024-01-03";
     Document.fields := Object [("Name", "X"); ("2024", "paid")] |}.

(** A document that arrived without its [fields] member. *)
Definition bare_document : Document.t :=
  {| Document.id := "4"; Document.file_name := "d.pdf";
     Document.document_type := "scan";
     Document.pdf_url := Some "https://files.example.org/d.pdf";
     Document.processed_at := "2024-01-04";
     Document.fields := Undefined |}.

Definition with_fields (doc : Document.t) (o : maybe_object) : Document.t :=
  {| Document.id := Document.id doc;
     Document.file_name := Document.file_name doc;
     Document.document_type := Document.document_type doc;
     Document.pdf_url := Document.pdf_url doc;
     Document.processed_at := Document.processed_at doc;
     Document.fields := o |}.

End Dashboard.

(** ** More about the session store *)
Module SessionStore.

Import AuthClient AuthContext.

(** The token in memory and the entry in durable storage agree: a held
    token is the stored one, and a stored truthy entry is the held token. *)
Definition store_agrees (w : World) : Prop :=
  (forall t, token w = Some t -> storage w = Some t)
  /\ (forall s, storage w = Some s -> truthy s = true -> token w = Some s).

(** The configuration React renders first: the initial values of
    [useState], before the mount effect has run. Effects are flushed
    before any event is handled, so nothing but the mount effect leads
    out of it. *)
Definition first_render (stored : option string) : Config :=
  {| world := initial stored; verified := []; pool := [] |}.

(** The configurations a render can show: the first one, and those
    reached from the mount effect on. *)
Definition observable (c : Config) : Prop :=
  (exists stored, c = first_render stored) \/ reachable c.

(** A held token is the stored entry. *)
Definition held_is_stored (w : World) : Prop :=
  forall t, token w = Some t -> storage w = Some t.

(** Durable storage holds the entry found at startup or a verified token. *)
Definition stored_or_verified (stored : option string) (c : Config) : Prop :=
  forall s, storage (world c) = Some s ->
            verified_token s c \/ stored = Some s.

(** What settling a request does to the store, storage included. *)
Definition settles_store (p : prog unit) (rs : replies) (w : World) : Prop :=
  let r := run_sync (resume rs p) w in
  fst r = cleared
  \/ (token (fst r) = token w
      /\ isAuthenticated (fst r) = isAuthenticated w
      /\ storage (fst r) = storage w)
  \/ (exists lr u, fst r = committed lr u
                   /\ In (access_token lr) (verifies rs p)).

Definition store_consistent (stored : option string) (c : Config) : Prop :=
  Forall in_flight (pool c)
  /\ store_agrees (world c)
  /\ stored_or_verified stored c.

(** The requests each handler sends, by the replies it receives. *)
Definition login_requests (rs : replies) (mail password : string)
  : list request :=
  ReqLogin mail password ::
  match AuthClient.login (login_reply rs) with
  | Ok r => [ReqMe (access_token r)]
  | Err _ => []
  end.

Definition signup_requests (rs : replies) (mail password : string)
  : list request :=
  ReqSignup mail password ::
  match AuthClient.signup (signup_reply rs) with
  | Ok _ => login_requests rs mail password
  | Err _ => []
  end.

Definition mount_requests (stored : option string) : list request :=
  match stored with
  | Some t => if truthy t then [ReqMe t] else []
  | None => []
  end.

End SessionStore.

(** ** The URL of a search, [searchDocuments] in both document clients *)
Module Url.

(** Strings stand for their UTF-8 bytes. [encodeURIComponent] keeps the
    bytes of A-Z a-z 0-9 - _ . ! ~ * ' ( ) and writes every other byte as
    a percent sign and two upper-case hexadecimal digits. *)
Definition unreserved (c : ascii) : bool :=
  let n := N_of_ascii c in
  (((65 <=? n) && (n <=? 90)) || ((97 <=? n) && (n <=? 122))
   || ((48 <=? n) && (n <=? 57)))%N
  || existsb (Ascii.eqb c)
             ["-"; "_"; "."; "!"; "~"; "*"; "'"; "("; ")"]%char.

Definition hex_digit (n : N) : ascii :=
  if (n <? 10)%N then ascii_of_N (48 + n) else ascii_of_N (55 + n).

Definition encode_byte (c : ascii) : string :=
  if unreserved c then String c EmptyString
  else String "%" (String (hex_digit (N_of_ascii c / 16))
                  (String (hex_digit (N_of_ascii c mod 16)) EmptyString)).

Fixpoint encodeURIComponent (s : string) : string :=
  match s with
  | EmptyString => EmptyString
  | String c s' => encode_byte c ++ encodeURIComponent s'
  end.

(** [`${API_URL}/documents/search?query=${encodeURIComponent(query)}`] *)
Definition searchUrl (API_URL query : string) : string :=
  API_URL ++ "/documents/search?query=" ++ encodeURIComponent query.





(** Reading an encoded component back, to show that nothing is lost. *)
Definition hex_value (c : ascii) : option N :=
  let n := N_of_ascii c in
  if ((48 <=? n) && (n <=? 57))%N then Some (n - 48)%N
  else if ((65 <=? n) && (n <=? 70))%N then Some (n - 55)%N
  else None.

Fixpoint percent_decode (s : string) : option string :=
  match s with
  | EmptyString => Some EmptyString
  | String c rest =>
      if Ascii.eqb c "%" then
        match rest with
        | String h (String l rest') =>
            match hex_value h, hex_value l, percent_decode rest' with
            | Some a, Some b, Some d =>
                Some (String (ascii_of_N (16 * a + b)) d)
            | _, _, _ => None
            end
        | _ => None
        end
      else
        match percent_decode rest with
        | Some d => Some (String c d)
        | None => None
        end
  end.

End Url.

(** ** The category cards of the dashboard, [dockeeper-web/app/page.tsx] *)
Module Categories.

Import Dashboard.

(** [CategorizedData]: an object of objects, in creation order. *)
Record CategorizedData : Type := {
  categories : list (string * list (string * string))
}.

(** [expandedCategories : Record<string, boolean>], its own properties.
    Reading a key that is not an own property reaches [Object.prototype],
    whose properties are all truthy. *)
Definition Object_prototype_has (key : string) : bool :=
  existsb (String.eqb key)
    ["constructor"; "hasOwnProperty"; "isPrototypeOf";
     "propertyIsEnumerable"; "toLocaleString"; "toString"; "valueOf";
     "__proto__"; "__defineGetter__"; "__defineSetter__";
     "__lookupGetter__"; "__lookupSetter__"].

Fixpoint own (key : string) (o : list (string * bool)) : option bool :=
  match o with
  | [] => None
  | (k, v) :: o' => if String.eqb key k then Some v else own key o'
  end.

(** The truthiness of [o[key]]. *)
Definition read (o : list (string * bool)) (key : string) : bool :=
  match own key o with
  | Some v => v
  | None => Object_prototype_has key
  end.

(** [{...o, [key]: v}]: the own properties of [o], [key] set to [v] where
    it stands, or added at the end. *)
Fixpoint with_key (key : string) (v : bool) (o : list (string * bool))
  : list (string * bool) :=
  match o with
  | [] => [(key, v)]
  | (k, w) :: o' =>
      if String.eqb key k then (k, v) :: o' else (k, w) :: with_key key v o'
  end.

Definition toggleCategory (category : string) (prev : list (string * bool))
  : list (string * bool) :=
  with_key category (negb (read prev category)) prev.

(** [expandedCategories[category] || false] *)
Definition isExpanded (expandedCategories : list (string * bool))
           (category : string) : bool :=
  read expandedCategories category || false.

Definition Object_keys (o : list (string * string)) : list string :=
  map fst (Object_entries o).

(** What one card shows of its category. *)
Record Card : Type := {
  title : string;
  fieldCount : nat;
  countLabel : string;
  expanded : bool;
  chips : list string;          (* the field names of the collapsed card *)
  more : option nat;            (* the "+N more" chip *)
  rows : list (string * string) (* the field list of the expanded card *)
}.

Definition card (expandedCategories : list (string * bool))
           (category : string) (fields : list (string * string)) : Card :=
  let fieldCount := length (Object_keys fields) in
  let isExpanded := isExpanded expandedCategories category in
  {| title := category;
     fieldCount := fieldCount;
     countLabel := if Nat.eqb fieldCount 1 then "field" else "fields";
     expanded := isExpanded;
     chips := if negb isExpanded
              then map fst (firstn 3 (Object_entries fields))
              else [];
     more := if negb isExpanded && Nat.ltb 3 (length (Object_keys fields))
             then Some (length (Object_keys fields) - 3)
             else None;
     rows := if isExpanded then Object_entries fields else [] |}.

Definition hidden (c : Card) : nat :=
  match more c with
  | Some n => n
  | None => 0
  end.

End Categories.

(** ** The handlers of the dashboard page, [dockeeper-web/app/page.tsx] *)
Module Page.

Import Dashboard Categories.

Record File : Type := {
  name : string;
  content : string
}.

(** The state of [Home]. *)
Record State : Type := {
  searchTerm : string;
  searchResults : list SearchResult.t;
  documents : list Document.t;
  error : string;
  isLoading : bool;
  categorizedFields : CategorizedData;
  expandedCategories : list (string * bool)
}.

Definition initial : State :=
  {| searchTerm := ""; searchResults := []; documents := []; error := "";
     isLoading := false; categorizedFields := {| categories := [] |};
     expandedCategories := [] |}.

Definition setSearchResults (v : list SearchResult.t) (s : State) : State :=
  {| searchTerm := searchTerm s; searchResults := v;
     documents := documents s; error := error s; isLoading := isLoading s;
     categorizedFields := categorizedFields s;
     expandedCategories := expandedCategories s |}.

Definition setDocuments (v : list Document.t) (s : State) : State :=
  {| searchTerm := searchTerm s; searchResults := searchResults s;
     documents := v; error := error s; isLoading := isLoading s;
     categorizedFields := categorizedFields s;
     expandedCategories := expandedCategories s |}.

Definition setError (v : string) (s : State) : State :=
  {| searchTerm := searchTerm s; searchResults := searchResults s;
     documents := documents s; error := v; isLoading := isLoading s;
     categorizedFields := categorizedFields s;
     expandedCategories := expandedCategories s |}.

Definition setIsLoading (v : bool) (s : State) : State :=
  {| searchTerm := searchTerm s; searchResults := searchResults s;
     documents := documents s; error := error s; isLoading := v;
     categorizedFields := categorizedFields s;
     expandedCategories := expandedCategories s |}.

Definition setCategorizedFields (v : CategorizedData) (s : State) : State :=
  {| searchTerm := searchTerm s; searchResults := searchResults s;
     documents := documents s; error := error s; isLoading := isLoading s;
     categorizedFields := v;
     expandedCategories := expandedCategories s |}.

(** The requests of the document client, and the replies of the backend
    to the (at most one) request of each kind that a handler sends. *)
Inductive api_request : Type :=
| ReqProcess (file : File) (token : string)
| ReqDocuments (token : string)
| ReqSearch (query token : string)
| ReqCategorize (token : string).

Record api_replies : Type := {
  process_reply : fetch_outcome Document.t;
  documents_reply : fetch_outcome (list Document.t);
  search_reply : fetch_outcome (list SearchResult.t);
  categorize_reply : fetch_outcome CategorizedData
}.

(** The token a handler may use: [!token] is false. *)
Definition usable (token : option string) : option string :=
  match token with
  | Some t => if truthy t then Some t else None
  | None => None
  end.

(** Each handler is run to completion; it returns the state it leaves and
    the requests it sent. [token] is the token of the session context in
    the render the handler belongs to. *)
Definition fetchDocuments (token : option string) (rs : api_replies)
           (s : State) : State * list api_request :=
  match usable token with
  | None => (setError "Not authenticated" s, [])
  | Some t =>
      match WebApi.getDocuments (documents_reply rs) with
      | Ok data => (setDocuments data s, [ReqDocuments t])
      | Err message => (setError message s, [ReqDocuments t])
      end
  end.

Definition handleFileUpload (file : File) (token : option string)
           (rs : api_replies) (s : State) : State * list api_request :=
  match usable token with
  | None => (setError "Not authenticated" s, [])
  | Some t =>
      match WebApi.processDocument (process_reply rs) with
      | Ok _ =>
          let r := fetchDocuments token rs s in
          (fst r, ReqProcess file t :: snd r)
      | Err message => (setError message s, [ReqProcess file t])
      end
  end.

Definition handleSearch (token : option string) (rs : api_replies)
           (s : State) : State * list api_request :=
  match usable token with
  | None => (setError "Not authenticated" s, [])
  | Some t =>
      match WebApi.searchDocuments (search_reply rs) with
      | Ok data => (setSearchResults data s, [ReqSearch (searchTerm s) t])
      | Err message => (setError message s, [ReqSearch (searchTerm s) t])
      end
  end.

Definition fetchCategorizedFields (token : option string) (rs : api_replies)
           (s : State) : State * list api_request :=
  match usable token with
  | None => (setError "Not authenticated" s, [])
  | Some t =>
      match WebApi.getCategorizedFields (categorize_reply rs) with
      | Ok data => (setCategorizedFields data s, [ReqCategorize t])
      | Err message => (setError message s, [ReqCategorize t])
      end
  end.

(** The effect on [[isAuthenticated, token]]: the requests it sends. Both
    handlers send their request before either reply arrives. *)
Definition loadOnAuth (w : AuthContext.World) (rs : api_replies) (s : State)
  : list api_request :=
  if AuthContext.isAuthenticated w
     && match usable (AuthContext.token w) with
        | Some _ => true
        | None => false
        end
  then snd (fetchDocuments (AuthContext.token w) rs s)
       ++ snd (fetchCategorizedFields (AuthContext.token w) rs s)
  else [].

(** The two forms of the login card; [login] and [signup] are the
    handlers of the session context. *)
(** The page from the click until the attempt settles: [setError('')],
    [setIsLoading(true)], then the handler waits. When a request of the
    attempt never settles, the page stays in this state. *)
Definition submitting (s : State) : State :=
  setIsLoading true (setError "" s).

(** The [catch] and the [finally] of the handler, once the attempt has
    settled. *)
Definition settled (attempt : AuthContext.run_result unit) (s1 : State)
  : State :=
  setIsLoading false
    match AuthContext.outcome attempt with
    | Ok _ => s1
    | Err message => setError message s1
    end.

Definition submit (attempt : AuthContext.run_result unit) (s : State)
  : State * AuthContext.World :=
  (settled attempt (submitting s), AuthContext.final attempt).

(** A refusal whose [detail] is the empty list. *)
Definition refused_with_list (P : Type) (x : P) : fetch_outcome P :=
  FetchResponse {| ok := false;
                   json := Ok {| detail := Present (JArray []);
                                 payload := x |} |}.

Definition handleLoginSubmit (rs : AuthContext.replies)
           (mail password : string) (s : State) (w : AuthContext.World)
  : State * AuthContext.World :=
  submit (AuthContext.run rs (AuthContext.handleLogin mail password) w) s.

Definition handleSignupSubmit (rs : AuthContext.replies)
           (mail password : string) (s : State) (w : AuthContext.World)
  : State * AuthContext.World :=
  submit (AuthContext.run rs (AuthContext.handleSignup mail password) w) s.

(** What the page renders of its state. *)
Definition banner (s : State) : option string :=
  if truthy (error s) then Some (error s) else None.

Definition searchTab (s : State) : list SearchResult.t :=
  displayedRows (searchTerm s) (searchResults s) (documents s).

(** The data of the page that the session handlers cannot reach. *)
Definition same_data (s s' : State) : Prop :=
  searchTerm s' = searchTerm s
  /\ searchResults s' = searchResults s
  /\ documents s' = documents s
  /\ categorizedFields s' = categorizedFields s
  /\ expandedCategories s' = expandedCategories s.

End Page.

(** ** What the wrappers have in common *)
Module Contract.

(** A wrapper returns a value exactly for a successful response whose
    body parses, and the value is the body. *)
Definition returns_body_of_ok (P : Type)
           (wrapper : fetch_outcome P -> result P) : Prop :=
  forall (o : fetch_outcome P) (x : P),
    wrapper o = Ok x <->
    exists response data,
      o = FetchResponse response
      /\ ok response = true
      /\ json response = Ok data
      /\ payload data = x.

(** A [detail] that is absent, [null], a boolean, a string or an object. *)
Definition plain (m : member) : bool :=
  match m with
  | Absent => true
  | Present JNull | Present (JBool _) | Present (JString _)
  | Present (JObject _) => true
  | Present (JNumber _) | Present (JArray _) => false
  | Unreadable _ => false
  end.

(** On a failed response whose body has such a [detail], the message is
    never empty. *)
Definition message_shown (P : Type)
           (wrapper : fetch_outcome P -> result P) : Prop :=
  forall (response : Response P) (data : Data P),
    ok response = false ->
    json response = Ok data ->
    plain (detail data) = true ->
    exists message, wrapper (FetchResponse response) = Err message
                    /\ truthy message = true.

(** On a failed response whose [detail] is the empty list, the message
    is empty. *)
Definition message_hidden (P : Type)
           (wrapper : fetch_outcome P -> result P) : Prop :=
  forall x : P,
    wrapper (FetchResponse
               {| ok := false;
                  json := Ok {| detail := Present (JArray []);
                                payload := x |} |})
    = Err "".

Definition shown_unless_list (P : Type)
           (wrapper : fetch_outcome P -> result P) : Prop :=
  message_shown wrapper /\ message_hidden wrapper.

(** On every failed response the message is not empty. *)
Definition message_never_empty (P : Type)
           (wrapper : fetch_outcome P -> result P) : Prop :=
  forall response : Response P,
    ok response = false ->
    exists message, wrapper (FetchResponse response) = Err message
                    /\ truthy message = true.

(** An outcome that is not a failed response. *)
Definition not_failed (P : Type) (o : fetch_outcome P) : Prop :=
  forall response, o = FetchResponse response -> ok response = true.

End Contract.

(** ** Sample data for the concrete runs below *)
Module Samples.

Import AuthClient AuthContext.

(** Sample replies of the backend. *)
Definition alice : User := {| id := "u-1"; email := "alice@example.org" |}.

Definition granted : LoginResponse :=
  {| user_id := "u-1"; access_token := "tok-1" |}.

Definition accepts : replies :=
  {| login_reply :=
       FetchResponse {| ok := true;
                        json := Ok {| detail := Absent; payload := granted |} |};
     signup_reply :=
       FetchResponse {| ok := true;
                        json := Ok {| detail := Absent;
                                      payload := {| message := "created" |} |} |};
     me_reply :=
       FetchResponse {| ok := true;
                        json := Ok {| detail := Absent; payload := alice |} |} |}.

(** The token is issued but [/auth/me] refuses it. *)
Definition refuses_token : replies :=
  {| login_reply := login_reply accepts;
     signup_reply := signup_reply accepts;
     me_reply := failed (Some "Invalid token") alice |}.

(** The credentials are refused. *)
Definition refuses_login : replies :=
  {| login_reply := failed (Some "Invalid credentials") granted;
     signup_reply := signup_reply accepts;
     me_reply := me_reply accepts |}.

(** The signup is refused. *)
Definition refuses_signup : replies :=
  {| login_reply := login_reply accepts;
     signup_reply := failed (Some "Email already registered")
                            {| message := "" |};
     me_reply := me_reply accepts |}.

End Samples.

(** ** Sample data for the page *)
Module PageSamples.

Import Dashboard Categories Page.

Definition scan : File := {| name := "scan.pdf"; content := "%PDF-1.7" |}.

(** The upload is accepted and the list that follows holds the two
    documents of the example. *)
Definition serves : api_replies :=
  {| process_reply :=
       FetchResponse {| ok := true;
                        json := Ok {| detail := Absent;
                                      payload := bare_document |} |};
     documents_reply :=
       FetchResponse {| ok := true;
                        json := Ok {| detail := Absent;
                                      payload := example_documents |} |};
     search_reply :=
       FetchResponse {| ok := true;
                        json := Ok {| detail := Absent;
                                      payload := example_rows |} |};
     categorize_reply :=
       FetchResponse {| ok := true;
                        json := Ok {| detail := Absent;
                                      payload := {| categories := [] |} |} |} |}.

(** The upload is refused. *)
Definition refuses_upload : api_replies :=
  {| process_reply := failed (Some "Only PDF files are accepted") bare_document;
     documents_reply := documents_reply serves;
     search_reply := search_reply serves;
     categorize_reply := categorize_reply serves |}.

(** The backend refuses the login and the signup with a validation
    error whose [detail] is the empty list. *)
Definition refuses_with_list : AuthContext.replies :=
  {| AuthContext.login_reply := refused_with_list Samples.granted;
     AuthContext.signup_reply :=
       refused_with_list {| AuthClient.message := "" |};
     AuthContext.me_reply := AuthContext.me_reply Samples.accepts |}.

(** A page that shows an earlier error and searches for "Name". *)
Definition searching : State :=
  {| searchTerm := "Name"; searchResults := []; documents := example_documents;
     error := "Failed to categorize fields"; isLoading := false;
     categorizedFields := {| categories := [] |};
     expandedCategories := [] |}.

End PageSamples.

(** * Properties *)

(** ** API wrappers *)
Module ApiProperties.

Lemma or_else_present (s fallback : string) :
  s <> "" -> or_else (Some s) fallback = s.
Proof. destruct s; [congruence | reflexivity]. Qed.

Lemma or_else_absent (fallback : string) :
  or_else None fallback = fallback /\ or_else (Some "") fallback = fallback.
Proof. split; reflexivity. Qed.







End ApiProperties.

(** ** Session context: one handler run to completion *)
Module SessionRuns.

Import AuthClient AuthContext Samples.

Lemma run_rethrow (rs : replies) (p : prog unit) (w : World) :
  run rs (try_catch p rethrow) w = run rs p w.
Proof.
  revert w. induction p as [a | e | a k IH | k IH | q k IH]; intro w; cbn.
  - reflexivity.
  - reflexivity.
  - now rewrite IH.
  - now rewrite IH.
  - now rewrite IH.
Qed.

(** A run to completion is the schedule in which the handler's own
    requests settle before anything else happens. *)
Lemma run_resumes (rs : replies) (p : prog unit) (w : World) :
  final (run rs p w)
  = match snd (run_sync p w) with
    | Finished _ => fst (run_sync p w)
    | Suspended p' => final (run rs (resume rs p') (fst (run_sync p w)))
    end
  /\ outcome (run rs p w)
     = match snd (run_sync p w) with
       | Finished r => r
       | Suspended p' => outcome (run rs (resume rs p') (fst (run_sync p w)))
       end.
Proof.
  revert w. induction p as [a | e | a k IH | k IH | q k IH]; intro w; cbn.
  - split; reflexivity.
  - split; reflexivity.
  - apply IH.
  - apply IH.
  - split; reflexivity.
Qed.

Lemma run_handleLogout (rs : replies) (w : World) :
  run rs handleLogout w =
  {| final := cleared;
     trace := [Did (SetToken None); Did (SetUser None);
               Did (SetIsAuthenticated false); Did RemoveItem];
     outcome := Ok tt |}.
Proof. reflexivity. Qed.

(** The three ways a login ends, by the replies of the backend. *)
Lemma run_handleLogin (rs : replies) (email password : string) (w : World) :
  run rs (handleLogin email password) w =
  match AuthClient.login (login_reply rs) with
  | Err e =>
      {| final := cleared;
         trace := [Sent (ReqLogin email password);
                   Did (ConsoleError "Login error:");
                   Did (SetToken None); Did (SetUser None);
                   Did (SetIsAuthenticated false); Did RemoveItem];
         outcome := Err e |}
  | Ok r =>
      match AuthClient.getCurrentUser (me_reply rs) with
      | Err e =>
          {| final := cleared;
             trace := [Sent (ReqLogin email password);
                       Sent (ReqMe (access_token r));
                       Did (ConsoleError "Get user error:");
                       Did (ConsoleError "Failed to fetch user:");
                       Did (SetToken None); Did (SetUser None);
                       Did (SetIsAuthenticated false); Did RemoveItem;
                       Did (SetToken None); Did (SetUser None);
                       Did (SetIsAuthenticated false); Did RemoveItem];
             outcome := Err e |}
      | Ok u =>
          {| final := committed r u;
             trace := [Sent (ReqLogin email password);
                       Sent (ReqMe (access_token r));
                       Did (SetUser (Some {| id := id u; email := AuthClient.email u |}));
                       Did (SetToken (Some (access_token r)));
                       Did (SetItem (access_token r));
                       Did (SetIsAuthenticated true)];
             outcome := Ok tt |}
      end
  end.
Proof.
  cbn. destruct (AuthClient.login (login_reply rs)) as [r | e]; cbn.
  - destruct (AuthClient.getCurrentUser (me_reply rs)) as [u | e];
      reflexivity.
  - reflexivity.
Qed.

Lemma run_handleSignup (rs : replies) (email password : string) (w : World) :
  run rs (handleSignup email password) w =
  match AuthClient.signup (signup_reply rs) with
  | Err e =>
      {| final := w;
         trace := [Sent (ReqSignup email password);
                   Did (ConsoleError "Signup error:")];
         outcome := Err e |}
  | Ok _ =>
      logged (Sent (ReqSignup email password))
             (run rs (handleLogin email password) w)
  end.
Proof.
  unfold handleSignup. rewrite run_rethrow. cbn.
  destruct (AuthClient.signup (signup_reply rs)) as [m | e]; reflexivity.
Qed.

Lemma run_mount (rs : replies) (w : World) :
  run rs mount w =
  match storage w with
  | None => {| final := w; trace := [Read]; outcome := Ok tt |}
  | Some t =>
      if truthy t then
        match AuthClient.getCurrentUser (me_reply rs) with
        | Ok u =>
            {| final := {| token := Some t;
                           user := Some {| id := id u; email := AuthClient.email u |};
                           isAuthenticated := true;
                           storage := storage w |};
               trace := [Read; Did (SetToken (Some t));
                         Did (SetIsAuthenticated true); Sent (ReqMe t);
                         Did (SetUser (Some {| id := id u;
                                               email := AuthClient.email u |}))];
               outcome := Ok tt |}
        | Err _ =>
            {| final := cleared;
               trace := [Read; Did (SetToken (Some t));
                         Did (SetIsAuthenticated true); Sent (ReqMe t);
                         Did (ConsoleError "Get user error:");
                         Did (ConsoleError "Failed to fetch user:");
                         Did (SetToken None); Did (SetUser None);
                         Did (SetIsAuthenticated false); Did RemoveItem;
                         Did (SetToken None); Did (SetUser None);
                         Did (SetIsAuthenticated false); Did RemoveItem];
               outcome := Ok tt |}
        end
      else {| final := w; trace := [Read]; outcome := Ok tt |}
  end.
Proof.
  destruct w as [tk us au [t | ]]; cbn; [ | reflexivity].
  destruct (truthy t); [ | reflexivity]. cbn.
  destruct (AuthClient.getCurrentUser (me_reply rs)); reflexivity.
Qed.

(** C3: when the [getCurrentUser] call of a login fails, the login ends
    with the store cleared (token, user, flag and storage entry) and
    re-throws the error of that call. *)
Theorem login_failed_verification :
  forall (email password : string) (rs : replies) (w : World)
         (r : LoginResponse) (e : string),
    AuthClient.login (login_reply rs) = Ok r ->
    AuthClient.getCurrentUser (me_reply rs) = Err e ->
    final (run rs (handleLogin email password) w) = cleared
    /\ Unauthenticated (final (run rs (handleLogin email password) w))
    /\ storage (final (run rs (handleLogin email password) w)) = None
    /\ outcome (run rs (handleLogin email password) w) = Err e.
Proof.
  intros email password rs w r e Hlogin Hme.
  rewrite run_handleLogin, Hlogin, Hme. cbn.
  repeat split.
Qed.

Lemma login_failed_verification_witness :
  final (run refuses_token (handleLogin "alice@example.org" "pw")
             (committed granted alice)) = cleared
  /\ outcome (run refuses_token (handleLogin "alice@example.org" "pw")
                  (committed granted alice)) = Err "Invalid token".
Proof.
  destruct (@login_failed_verification
              "alice@example.org" "pw" refuses_token
              (committed granted alice) granted "Invalid token"
              eq_refl eq_refl) as (Hfinal & _ & _ & Hout).
  split; assumption.
Defined.

(** C5: when the login call and the [getCurrentUser] call that follows
    it succeed, the login ends Authenticated: the returned access token
    is the session token (and the stored one), and the session user has
    the id and email of the record [getCurrentUser] returned. *)
Theorem login_success :
  forall (email password : string) (rs : replies) (w : World)
         (r : LoginResponse) (u : User),
    AuthClient.login (login_reply rs) = Ok r ->
    AuthClient.getCurrentUser (me_reply rs) = Ok u ->
    let w' := final (run rs (handleLogin email password) w) in
    Authenticated w'
    /\ token w' = Some (access_token r)
    /\ user w' = Some {| id := id u; email := AuthClient.email u |}
    /\ isAuthenticated w' = true
    /\ storage w' = Some (access_token r)
    /\ outcome (run rs (handleLogin email password) w) = Ok tt.
Proof.
  intros email password rs w r u Hlogin Hme.
  rewrite run_handleLogin, Hlogin, Hme. cbn.
  repeat split; discriminate.
Qed.

Lemma login_success_witness :
  final (run accepts (handleLogin "alice@example.org" "pw") (initial None))
  = {| token := Some "tok-1"; user := Some alice;
       isAuthenticated := true; storage := Some "tok-1" |}.
Proof.
  destruct (@login_success "alice@example.org" "pw" accepts (initial None)
                           granted alice eq_refl eq_refl)
    as (_ & Htoken & Huser & Hflag & Hstorage & _).
  destruct (final (run accepts (handleLogin "alice@example.org" "pw")
                       (initial None))) as [t u a s].
  cbn in Htoken, Huser, Hflag, Hstorage. subst. reflexivity.
Defined.

(** C6: from any store, logout ends with token null, user null, the flag
    false and the storage entry removed; it cannot fail; a second logout
    changes nothing. *)
Theorem logout_total_idempotent :
  forall (rs rs' : replies) (w : World),
    final (run rs handleLogout w) = cleared
    /\ outcome (run rs handleLogout w) = Ok tt
    /\ Unauthenticated (final (run rs handleLogout w))
    /\ storage (final (run rs handleLogout w)) = None
    /\ final (run rs' handleLogout (final (run rs handleLogout w)))
       = final (run rs handleLogout w).
Proof.
  intros. repeat split.
Qed.

(** C7, as the specification states it, fails: a login whose credentials
    are refused clears the storage entry, although no verification took
    place and nobody logged out. *)
Lemma storage_frame_counterexample :
  let res := run refuses_login (handleLogin "alice@example.org" "wrong")
                 (committed granted alice) in
  requests (trace res) = [ReqLogin "alice@example.org" "wrong"]
  /\ clears_storage (trace res) = true
  /\ storage (committed granted alice) = Some "tok-1"
  /\ storage (final res) = None.
Proof. repeat split. Qed.

(** C7 (amended): a token is written to durable storage only by a login
    (alone or inside a signup) whose login call and verification both
    succeeded, and it is the token that login returned; the storage entry
    is cleared by logout, by a failed verification (at startup or in a
    login), and by a login whose login call failed; a failed signup call,
    a startup without a stored token and a successful verification leave
    durable storage as it was. *)
Theorem storage_frame :
  forall (rs : replies) (w : World) (email password : string),
    let login_ok := succeeded (AuthClient.login (login_reply rs)) in
    let me_ok := succeeded (AuthClient.getCurrentUser (me_reply rs)) in
    let signup_ok := succeeded (AuthClient.signup (signup_reply rs)) in
    let returned :=
      match AuthClient.login (login_reply rs) with
      | Ok r => [access_token r]
      | Err _ => []
      end in
    (storage_writes (trace (run rs handleLogout w)) = []
     /\ clears_storage (trace (run rs handleLogout w)) = true)
    /\ (storage_writes (trace (run rs (handleLogin email password) w))
        = (if login_ok && me_ok then returned else [])
        /\ clears_storage (trace (run rs (handleLogin email password) w))
           = negb login_ok || (login_ok && negb me_ok))
    /\ (storage_writes (trace (run rs (handleSignup email password) w))
        = (if signup_ok && (login_ok && me_ok) then returned else [])
        /\ clears_storage (trace (run rs (handleSignup email password) w))
           = signup_ok && (negb login_ok || (login_ok && negb me_ok)))
    /\ (storage_writes (trace (run rs mount w)) = []
        /\ clears_storage (trace (run rs mount w))
           = match storage w with
             | Some t => truthy t && negb me_ok
             | None => false
             end).
Proof.
  intros rs w email password.
  rewrite run_handleLogout, run_handleSignup, run_handleLogin, run_mount.
  cbv zeta.
  destruct (AuthClient.login (login_reply rs)) as [r | e1];
    destruct (AuthClient.getCurrentUser (me_reply rs)) as [u | e2];
    destruct (AuthClient.signup (signup_reply rs)) as [m | e3];
    destruct (storage w) as [t | ]; try destruct (truthy t);
    cbn; repeat split.
Qed.

(** C8: a signup sends the signup request first. When that call fails,
    no further request is sent, the store is untouched and the error
    reaches the caller. When it succeeds, the login request follows with
    the same credentials, then [getCurrentUser] for the returned token,
    then the commit of user, token, storage entry and flag, in this
    order; a failure of the login call or of the verification leaves the
    store cleared and reaches the caller. A signup that succeeded
    continues exactly as a login does, and whenever a signup fails, at
    either stage, nothing was written to durable storage and the store is
    either untouched or cleared, so nothing of the attempt is kept. *)
Theorem signup_composition :
  forall (email password : string) (rs : replies) (w : World),
    let res := run rs (handleSignup email password) w in
    hd_error (requests (trace res)) = Some (ReqSignup email password)
    /\ (forall m, AuthClient.signup (signup_reply rs) = Ok m ->
          res = logged (Sent (ReqSignup email password))
                       (run rs (handleLogin email password) w))
    /\ (forall e, AuthClient.signup (signup_reply rs) = Err e ->
          requests (trace res) = [ReqSignup email password]
          /\ final res = w
          /\ outcome res = Err e)
    /\ (forall e, outcome res = Err e ->
          storage_writes (trace res) = []
          /\ (final res = w \/ final res = cleared))
    /\ (forall m e,
          AuthClient.signup (signup_reply rs) = Ok m ->
          AuthClient.login (login_reply rs) = Err e ->
          requests (trace res)
          = [ReqSignup email password; ReqLogin email password]
          /\ final res = cleared
          /\ outcome res = Err e)
    /\ (forall m r e,
          AuthClient.signup (signup_reply rs) = Ok m ->
          AuthClient.login (login_reply rs) = Ok r ->
          AuthClient.getCurrentUser (me_reply rs) = Err e ->
          requests (trace res)
          = [ReqSignup email password; ReqLogin email password;
             ReqMe (access_token r)]
          /\ final res = cleared
          /\ outcome res = Err e)
    /\ (forall m r u,
          AuthClient.signup (signup_reply rs) = Ok m ->
          AuthClient.login (login_reply rs) = Ok r ->
          AuthClient.getCurrentUser (me_reply rs) = Ok u ->
          trace res
          = [Sent (ReqSignup email password);
             Sent (ReqLogin email password);
             Sent (ReqMe (access_token r));
             Did (SetUser (Some {| id := id u;
                                   email := AuthClient.email u |}));
             Did (SetToken (Some (access_token r)));
             Did (SetItem (access_token r));
             Did (SetIsAuthenticated true)]
          /\ final res = committed r u
          /\ outcome res = Ok tt).
Proof.
  intros email password rs w res. subst res.
  rewrite run_handleSignup, run_handleLogin.
  destruct (AuthClient.signup (signup_reply rs)) as [m | e3];
    destruct (AuthClient.login (login_reply rs)) as [r | e1];
    destruct (AuthClient.getCurrentUser (me_reply rs)) as [u | e2];
    cbn; repeat split; intros; try discriminate; try congruence; auto.
Qed.

Lemma signup_composition_witness :
  run accepts (handleSignup "alice@example.org" "pw") (initial None)
  = logged (Sent (ReqSignup "alice@example.org" "pw"))
           (run accepts (handleLogin "alice@example.org" "pw") (initial None))
  /\ final (run refuses_signup (handleSignup "alice@example.org" "pw")
                (initial None)) = initial None
  /\ storage_writes
       (trace (run refuses_token (handleSignup "alice@example.org" "pw")
                   (initial None))) = []
  /\ requests
       (trace (run refuses_login (handleSignup "alice@example.org" "pw")
                   (initial None)))
     = [ReqSignup "alice@example.org" "pw"; ReqLogin "alice@example.org" "pw"]
  /\ requests
       (trace (run refuses_token (handleSignup "alice@example.org" "pw")
                   (initial None)))
     = [ReqSignup "alice@example.org" "pw"; ReqLogin "alice@example.org" "pw";
        ReqMe "tok-1"]
  /\ final (run accepts (handleSignup "alice@example.org" "pw")
                (initial None)) = committed granted alice.
Proof.
  pose proof (@signup_composition "alice@example.org" "pw" accepts
                                  (initial None))
    as (_ & Hlogin & _ & _ & _ & _ & Hcommit).
  pose proof (@signup_composition "alice@example.org" "pw" refuses_signup
                                  (initial None))
    as (_ & _ & Hrefused & _).
  pose proof (@signup_composition "alice@example.org" "pw" refuses_token
                                  (initial None))
    as (_ & _ & _ & Hkept & _ & Hverify & _).
  pose proof (@signup_composition "alice@example.org" "pw" refuses_login
                                  (initial None))
    as (_ & _ & _ & _ & Hcall & _).
  split; [exact (Hlogin {| message := "created" |} eq_refl) | ].
  split; [exact (proj1 (proj2 (Hrefused "Email already registered" eq_refl)))
         | ].
  split; [exact (proj1 (Hkept "Invalid token" eq_refl)) | ].
  split; [exact (proj1 (Hcall {| message := "created" |}
                              "Invalid credentials" eq_refl eq_refl)) | ].
  split; [exact (proj1 (Hverify {| message := "created" |} granted
                                "Invalid token" eq_refl eq_refl eq_refl)) | ].
  exact (proj1 (proj2 (Hcommit {| message := "created" |} granted alice
                               eq_refl eq_refl eq_refl))).
Defined.

(** C9: at startup, a stored token that [getCurrentUser] accepts brings
    the session to Authenticated with that token, and the only request
    sent is the verification (no login call); a stored token that fails
    verification brings it to Unauthenticated with the storage entry
    removed; with no stored token the session stays Unauthenticated. A
    token is held when [getItem] returns a truthy value, as the code
    tests it. *)
Theorem startup_hydration :
  forall (stored : option string) (rs : replies),
    let res := run rs mount (initial stored) in
    (forall t u, stored = Some t -> truthy t = true ->
       AuthClient.getCurrentUser (me_reply rs) = Ok u ->
       Authenticated (final res)
       /\ final res = {| token := Some t;
                         user := Some {| id := id u;
                                         email := AuthClient.email u |};
                         isAuthenticated := true;
                         storage := Some t |}
       /\ requests (trace res) = [ReqMe t])
    /\ (forall t e, stored = Some t -> truthy t = true ->
          AuthClient.getCurrentUser (me_reply rs) = Err e ->
          Unauthenticated (final res) /\ storage (final res) = None)
    /\ (stored = None ->
          Unauthenticated (final res)
          /\ final res = initial None
          /\ requests (trace res) = []).
Proof.
  intros stored rs res. subst res. rewrite run_mount. cbn.
  repeat split; intros; subst; cbn in *;
    repeat match goal with
           | H : truthy _ = true |- _ => rewrite H in *; clear H
           | H : AuthClient.getCurrentUser _ = _ |- _ => rewrite H in *; clear H
           end; cbn; try reflexivity; try discriminate.
Qed.

Lemma startup_hydration_witness :
  Authenticated (final (run accepts mount (initial (Some "tok-1"))))
  /\ final (run refuses_token mount (initial (Some "tok-1"))) = cleared
  /\ final (run accepts mount (initial None)) = initial None.
Proof.
  split; [ | split].
  - exact (proj1 (proj1 (@startup_hydration (Some "tok-1") accepts)
                        "tok-1" alice eq_refl eq_refl eq_refl)).
  - destruct (proj1 (proj2 (@startup_hydration (Some "tok-1") refuses_token))
                    "tok-1" "Invalid token" eq_refl eq_refl eq_refl)
      as [_ _]. reflexivity.
  - exact (proj1 (proj2 (proj2 (proj2 (@startup_hydration None accepts))
                               eq_refl))).
Defined.

(** An empty string in the storage entry counts as no token. *)
Lemma startup_empty_entry (rs : replies) :
  final (run rs mount (initial (Some ""))) = initial (Some "").
Proof. reflexivity. Qed.

End SessionRuns.

(** ** Session context: interleaved handlers *)
Module SessionInvariant.

Import AuthClient AuthContext Samples.

Lemma run_sync_inside (p : prog unit) (w : World) :
  run_sync (try_catch p rethrow) w
  = (fst (run_sync p w), inside (snd (run_sync p w))).
Proof.
  revert w. induction p as [a | e | a k IH | k IH | q k IH]; intro w; cbn.
  - reflexivity.
  - reflexivity.
  - apply IH.
  - apply IH.
  - reflexivity.
Qed.

Lemma in_flight_suspended (p : prog unit) :
  in_flight p -> exists q k, p = Fetch q k.
Proof.
  induction 1 as [t | email password | r | email password | p _ IH].
  - eexists; eexists; reflexivity.
  - eexists; eexists; reflexivity.
  - eexists; eexists; reflexivity.
  - eexists; eexists; reflexivity.
  - destruct IH as (q & k & ->). eexists; eexists; reflexivity.
Qed.

Lemma resume_inside (rs : replies) (p : prog unit) :
  in_flight p ->
  resume rs (try_catch p rethrow) = try_catch (resume rs p) rethrow
  /\ head_request (try_catch p rethrow) = head_request p.
Proof.
  intro H. destruct (in_flight_suspended H) as (q & k & ->).
  split; reflexivity.
Qed.

Lemma verifies_inside (rs : replies) (p : prog unit) :
  in_flight p -> verifies rs (try_catch p rethrow) = verifies rs p.
Proof.
  intro H. unfold verifies. now rewrite (proj2 (resume_inside rs H)).
Qed.

Lemma in_flight_inside (s : segment unit) :
  Forall in_flight (still_pending s) ->
  Forall in_flight (still_pending (inside s)).
Proof.
  destruct s as [r | p]; cbn; intro H; [constructor | ].
  inversion H; subst. constructor; [now apply fl_inside | constructor].
Qed.

(** Every suspended handler settles safely, whatever the reply. *)
Lemma in_flight_settles (p : prog unit) (rs : replies) (w : World) :
  in_flight p -> settles_safely p rs w.
Proof.
  intro H. revert w.
  induction H as [t | email password | r | email password | p Hp IH];
    intro w; unfold settles_safely.
  - (* startup verification *)
    unfold verifies; cbn.
    destruct (AuthClient.getCurrentUser (me_reply rs)) as [u | e]; cbn.
    + split; [constructor | ]. right; left.
      repeat split. intros t' [= <-]. now left.
    + split; [constructor | ]. now left.
  - (* login, at its login call *)
    cbn. destruct (AuthClient.login (login_reply rs)) as [r | e]; cbn.
    + split.
      * constructor; [exact (fl_verify r) | constructor].
      * right; left. repeat split. intros t [=].
    + split; [constructor | ]. now left.
  - (* login, at its verification *)
    unfold verifies; cbn.
    destruct (AuthClient.getCurrentUser (me_reply rs)) as [u | e]; cbn.
    + split; [constructor | ]. right; right.
      exists (access_token r). repeat split. now left.
    + split; [constructor | ]. now left.
  - (* signup, at its signup call *)
    cbn. destruct (AuthClient.signup (signup_reply rs)) as [m | e]; cbn.
    + split.
      * constructor;
          [exact (fl_inside (fl_login email password)) | constructor].
      * right; left. repeat split. intros t [=].
    + split; [constructor | ]. right; left. repeat split. intros t [=].
  - (* a handler inside a signup *)
    destruct (IH w) as [Hpool Hworld].
    rewrite (proj1 (resume_inside rs Hp)), run_sync_inside,
            (proj2 (resume_inside rs Hp)), (verifies_inside rs Hp).
    cbn [fst snd]. split; [now apply in_flight_inside | exact Hworld].
Qed.

Lemma nth_error_split_pool (A : Type) (l : list A) (n : nat) (x : A) :
  nth_error l n = Some x -> l = firstn n l ++ x :: skipn (S n) l.
Proof.
  revert n. induction l as [ | y l IH]; intros [ | n] H; cbn in *;
    try discriminate.
  - now injection H as ->.
  - f_equal. now apply IH.
Qed.

(** The states a login passes through: the store is untouched until the
    verification settles, and then it is committed or cleared at once. *)
Lemma login_segments (rs : replies) (w : World) (mail password : string) :
  run_sync (handleLogin mail password) w
  = (w, Suspended (handleLogin mail password))
  /\ (forall r, AuthClient.login (login_reply rs) = Ok r ->
        run_sync (resume rs (handleLogin mail password)) w
        = (w, Suspended (try_catch (login_verify_commit r) login_catch)))
  /\ (forall e, AuthClient.login (login_reply rs) = Err e ->
        run_sync (resume rs (handleLogin mail password)) w
        = (cleared, Finished (Err e)))
  /\ (forall r u, AuthClient.getCurrentUser (me_reply rs) = Ok u ->
        run_sync (resume rs (try_catch (login_verify_commit r) login_catch)) w
        = (committed r u, Finished (Ok tt)))
  /\ (forall r e, AuthClient.getCurrentUser (me_reply rs) = Err e ->
        run_sync (resume rs (try_catch (login_verify_commit r) login_catch)) w
        = (cleared, Finished (Err e))).
Proof.
  split; [reflexivity | ].
  repeat split; intros; cbn;
    match goal with H : _ = _ |- _ => rewrite H end; reflexivity.
Qed.

(** Establish: the configuration after the mount effect is consistent. *)
Lemma consistent_start (stored : option string) : consistent (start stored).
Proof.
  unfold consistent, flag_iff_token, token_verified_or_hydrating,
         hydrating, verified_token, start.
  destruct stored as [t | ]; cbn.
  - destruct (truthy t); cbn.
    + split; [constructor; [exact (fl_hydrate t) | constructor] | ].
      split; [split; [discriminate | reflexivity] | ].
      intros t' [= <-]. right. now left.
    + split; [constructor | ].
      split; [split; [discriminate | congruence] | discriminate].
  - split; [constructor | ].
    split; [split; [discriminate | congruence] | discriminate].
Qed.

(** Preserve: invoking an operation. *)
Lemma consistent_invoke (c : Config) (op : operation) :
  consistent c ->
  consistent (absorb c (pool c) [] [] (run_sync (handler op) (world c))).
Proof.
  unfold consistent, flag_iff_token, token_verified_or_hydrating,
         hydrating, verified_token.
  intros (Hpool & Hflag & Htoken).
  destruct op as [email password | email password | ]; cbn.
  - split; [ | split; [exact Hflag | ]].
    + apply Forall_app; split; [exact Hpool | ].
      constructor; [exact (fl_login email password) | constructor].
    + intros t Ht. destruct (Htoken t Ht) as [Hv | Hh]; [now left | right].
      apply in_or_app. now left.
  - split; [ | split; [exact Hflag | ]].
    + apply Forall_app; split; [exact Hpool | ].
      constructor; [exact (fl_signup email password) | constructor].
    + intros t Ht. destruct (Htoken t Ht) as [Hv | Hh]; [now left | right].
      apply in_or_app. now left.
  - rewrite app_nil_r. split; [exact Hpool | ].
    split; [split; [discriminate | congruence] | discriminate].
Qed.

(** Preserve: a request settles. *)
Lemma consistent_settle (c : Config) (n : nat) (rs : replies)
      (p : prog unit) :
  consistent c ->
  nth_error (pool c) n = Some p ->
  consistent (absorb c (firstn n (pool c)) (skipn (S n) (pool c))
                     (verifies rs p) (run_sync (resume rs p) (world c))).
Proof.
  unfold consistent, flag_iff_token, token_verified_or_hydrating,
         hydrating, verified_token.
  intros (Hpool & Hflag & Htoken) Hn.
  pose proof (nth_error_split_pool _ _ Hn) as Hsplit.
  assert (Hp : in_flight p).
  { rewrite Forall_forall in Hpool. apply Hpool.
    eapply nth_error_In; eassumption. }
  destruct (in_flight_settles rs (world c) Hp) as [Hnew Hworld].
  set (r := run_sync (resume rs p) (world c)) in *.
  cbn [absorb world verified pool].
  split; [ | split].
  - rewrite Hsplit in Hpool.
    apply Forall_app in Hpool as [Hbefore Hafter].
    inversion Hafter; subst.
    apply Forall_app; split; [assumption | ].
    apply Forall_app; split; assumption.
  - destruct Hworld as [-> | [(Ht & Ha & _) | (t & Ht & Ha & _)]].
    + cbn. split; [discriminate | congruence].
    + rewrite Ht, Ha. exact Hflag.
    + rewrite Ht, Ha. split; [discriminate | reflexivity].
  - intros t Htok.
    destruct Hworld as [Hc | [(Ht & Ha & Hme) | (t' & Ht & Ha & Hv)]].
    + rewrite Hc in Htok. discriminate.
    + rewrite Ht in Htok.
      destruct (Htoken t Htok) as [Hv | Hh].
      * left. apply in_or_app. now right.
      * rewrite Hsplit in Hh.
        apply in_app_or in Hh as [Hh | [Hh | Hh]].
        -- right. apply in_or_app. now left.
        -- left. apply in_or_app. left. apply Hme.
           rewrite Hh. reflexivity.
        -- right. apply in_or_app. right. apply in_or_app. now right.
    + rewrite Ht in Htok. injection Htok as <-.
      left. apply in_or_app. now left.
Qed.

Lemma consistent_step (c c' : Config) (i : input) :
  consistent c -> step c i = Some c' -> consistent c'.
Proof.
  intros Hc. destruct i as [op | n rs]; cbn.
  - intros [= <-]. now apply consistent_invoke.
  - destruct (nth_error (pool c) n) as [p | ] eqn:Hn; [ | discriminate].
    intros [= <-]. now apply consistent_settle.
Qed.

Lemma consistent_steps (inputs : list input) (c c' : Config) :
  consistent c -> steps c inputs = Some c' -> consistent c'.
Proof.
  revert c. induction inputs as [ | i inputs IH]; intros c Hc; cbn.
  - now intros [= <-].
  - destruct (step c i) as [c1 | ] eqn:Hstep; [ | discriminate].
    apply IH. eapply consistent_step; eassumption.
Qed.

(** C1, as the specification states it, fails: right after startup with a
    stored token the session is marked authenticated while no token has
    been verified yet; the dashboard renders in that state. *)
Lemma session_invariant_counterexample :
  reachable (start (Some "stale"))
  /\ isAuthenticated (world (start (Some "stale"))) = true
  /\ token (world (start (Some "stale"))) = Some "stale"
  /\ verified (start (Some "stale")) = []
  /\ ~ authenticated_iff_verified (start (Some "stale")).
Proof.
  split; [exists (Some "stale"), []; reflexivity | ].
  repeat split.
  intros [H _]. destruct (H eq_refl) as (t & _ & []).
Qed.

(** C1 (amended): in every reachable configuration the session is marked
    authenticated exactly when it holds a token, and a held token has
    been verified by a successful [getCurrentUser] in this lifecycle or is
    the stored token whose startup verification is still in flight;
    hence, once that startup verification has settled, the session is
    authenticated iff it holds a verified token. A login commits token
    and flag only after its verification succeeded. *)
Theorem session_invariant :
  forall c : Config,
    reachable c ->
    (isAuthenticated (world c) = true <-> token (world c) <> None)
    /\ (forall t, token (world c) = Some t ->
                  verified_token t c \/ hydrating t c)
    /\ ((forall t, ~ hydrating t c) -> authenticated_iff_verified c).
Proof.
  intros c (stored & inputs & Hsteps).
  destruct (consistent_steps inputs (consistent_start stored) Hsteps)
    as (_ & Hflag & Htoken).
  split; [exact Hflag | split; [exact Htoken | ]].
  intro Hquiet. unfold authenticated_iff_verified. split.
  - intro Ha. apply Hflag in Ha.
    destruct (token (world c)) as [t | ] eqn:Ht; [ | congruence].
    exists t. split; [reflexivity | ].
    destruct (Htoken t Ht) as [Hv | Hh]; [exact Hv | ].
    exfalso. exact (Hquiet t Hh).
  - intros (t & Ht & _). apply Hflag. congruence.
Qed.

Lemma session_invariant_witness :
  let c := {| world := {| token := Some "tok-1"; user := Some alice;
                          isAuthenticated := true;
                          storage := Some "tok-1" |};
              verified := ["tok-1"];
              pool := [] |} in
  reachable c /\ authenticated_iff_verified c.
Proof.
  intro c.
  assert (Hc : reachable c)
    by (exists (Some "tok-1"), [Settle 0 accepts]; reflexivity).
  split; [exact Hc | ].
  apply (proj2 (proj2 (session_invariant Hc))).
  intros t [].
Defined.

End SessionInvariant.

(** ** Dashboard rows *)
Module DashboardProperties.

Import Dashboard.

Lemma indexed_named (props : list (string * string)) :
  (forall kv, In kv props -> array_index (fst kv) = None) ->
  indexed props = [].
Proof.
  unfold indexed. induction props as [ | kv props IH]; intro H; cbn.
  - reflexivity.
  - rewrite (H kv (or_introl eq_refl)). cbn.
    apply IH. intros kv' Hin. apply H. now right.
Qed.

Lemma filter_named (props : list (string * string)) :
  (forall kv, In kv props -> array_index (fst kv) = None) ->
  filter is_named props = props.
Proof.
  induction props as [ | kv props IH]; intro H; cbn.
  - reflexivity.
  - unfold is_named at 1. rewrite (H kv (or_introl eq_refl)).
    f_equal. apply IH. intros kv' Hin. apply H. now right.
Qed.

(** Without array-index keys, [Object.entries] is the creation order. *)
Lemma Object_entries_named (props : list (string * string)) :
  (forall kv, In kv props -> array_index (fst kv) = None) ->
  Object_entries props = props.
Proof.
  intro H. unfold Object_entries.
  now rewrite (indexed_named _ H), (filter_named _ H).
Qed.

Lemma insert_by_index_perm (e : N * (string * string))
      (l : list (N * (string * string))) :
  Permutation (insert_by_index e l) (e :: l).
Proof.
  induction l as [ | e' l IH]; cbn.
  - apply Permutation_refl.
  - destruct (fst e <? fst e')%N.
    + apply Permutation_refl.
    + apply perm_trans with (e' :: e :: l).
      * now apply perm_skip.
      * apply perm_swap.
Qed.

Lemma indexed_perm (props : list (string * string)) :
  Permutation (map snd (indexed props))
              (filter (fun kv => negb (is_named kv)) props).
Proof.
  unfold indexed. induction props as [ | kv props IH]; cbn.
  - apply Permutation_refl.
  - unfold is_named at 1.
    destruct (array_index (fst kv)) as [n | ]; cbn.
    + apply perm_trans with (map snd ((n, kv) :: fold_right insert_by_index []
                 (flat_map (fun kv0 => match array_index (fst kv0) with
                                       | Some n0 => [(n0, kv0)]
                                       | None => []
                                       end) props))).
      * apply Permutation_map. apply insert_by_index_perm.
      * cbn. now apply perm_skip.
    + exact IH.
Qed.

Lemma filter_split_perm (A : Type) (f : A -> bool) (l : list A) :
  Permutation (filter (fun x => negb (f x)) l ++ filter f l) l.
Proof.
  induction l as [ | x l IH]; cbn.
  - apply Permutation_refl.
  - destruct (f x); cbn.
    + apply Permutation_sym, Permutation_cons_app.
      now apply Permutation_sym.
    + now apply perm_skip.
Qed.

(** [Object.entries] yields every property once, whatever the keys are. *)
Lemma Object_entries_perm (props : list (string * string)) :
  Permutation (Object_entries props) props.
Proof.
  unfold Object_entries.
  apply perm_trans with
    (filter (fun kv => negb (is_named kv)) props ++ filter is_named props).
  - apply Permutation_app_tail. apply indexed_perm.
  - apply filter_split_perm.
Qed.

(** Array-index keys come first, whatever their place in the object. *)
Example Object_entries_numbered :
  Object_entries [("b", "1"); ("10", "2"); ("9", "3"); ("07", "4")]
  = [("9", "3"); ("10", "2"); ("b", "1"); ("07", "4")].
Proof. reflexivity. Qed.

(** C4, as the specification states it, fails: a field whose name is an
    array index is displayed before the fields created before it. *)
Lemma displayedRows_counterexample :
  displayedRows "" [] [numbered_document]
  = [ row numbered_document ("2024", "paid");
      row numbered_document ("Name", "X") ]
  /\ spec_rows [numbered_document]
     = [ row numbered_document ("Name", "X");
         row numbered_document ("2024", "paid") ]
  /\ displayedRows "" [] [numbered_document] <> spec_rows [numbered_document].
Proof.
  split; [reflexivity | split; [reflexivity | discriminate]].
Qed.

(** C4 (amended): with an empty search text, and no field name that is
    an array index (the canonical decimal form of an integer below
    2^32 - 1), the displayed rows are the concatenation, in document list
    order, of each document's field entries in insertion order, one row
    per entry, tagged with the document's [file_name] and [pdf_url]. *)
Theorem displayedRows_empty_search :
  forall (documents : list Document.t) (searchResults : list SearchResult.t),
    (forall doc name, In doc documents -> In name (field_names doc) ->
                      array_index name = None) ->
    displayedRows "" searchResults documents = spec_rows documents.
Proof.
  intros documents searchResults H. unfold displayedRows, spec_rows. cbn.
  rewrite flat_map_concat_map. f_equal.
  apply map_ext_in. intros doc Hdoc. f_equal.
  assert (Hnamed : forall kv, In kv (or_empty (Document.fields doc)) ->
                              array_index (fst kv) = None).
  { intros kv Hkv. apply (H doc (fst kv) Hdoc).
    unfold field_names. apply in_map.
    destruct (Document.fields doc); assumption. }
  rewrite (Object_entries_named _ Hnamed).
  destruct (Document.fields doc); reflexivity.
Qed.

(** The example of the specification: two documents, three rows. *)
Lemma displayedRows_empty_search_witness :
  displayedRows "" [] example_documents = example_rows.
Proof.
  rewrite (@displayedRows_empty_search example_documents []).
  - reflexivity.
  - intros doc name [<- | [<- | []]]; cbn.
    + intros [<- | [<- | []]]; reflexivity.
    + intros [<- | []]; reflexivity.
Defined.

(** C10: with an empty search text, a document whose [fields] member is
    undefined or null contributes no row, wherever it stands in the list;
    it is displayed as the same document with an empty [fields] object. *)
Theorem missing_fields_no_rows :
  forall (before after : list Document.t) (doc : Document.t)
         (searchResults : list SearchResult.t),
    Document.fields doc = Undefined \/ Document.fields doc = Null ->
    displayedRows "" searchResults [doc] = []
    /\ displayedRows "" searchResults (before ++ doc :: after)
       = displayedRows "" searchResults (before ++ after)
    /\ displayedRows "" searchResults (before ++ doc :: after)
       = displayedRows "" searchResults
           (before ++ with_fields doc (Object []) :: after).
Proof.
  intros before after doc searchResults H. unfold displayedRows. cbn.
  assert (Hrows : map (row doc)
                      (Object_entries (or_empty (Document.fields doc))) = [])
    by (destruct H as [-> | ->]; reflexivity).
  rewrite !flat_map_app. cbn. rewrite Hrows. cbn.
  split; [reflexivity | split; reflexivity].
Qed.

Lemma missing_fields_no_rows_witness :
  displayedRows "" [] (example_documents ++ bare_document :: example_documents)
  = displayedRows "" [] (example_documents ++ example_documents).
Proof.
  exact (proj1 (proj2 (@missing_fields_no_rows
                         example_documents example_documents bare_document
                         [] (or_introl eq_refl)))).
Defined.

End DashboardProperties.

(** ** Session context: the store and the requests *)
Module SessionExtras.

Import AuthClient AuthContext SessionStore Samples.

Lemma in_flight_settles_store (p : prog unit) (rs : replies) (w : World) :
  in_flight p -> settles_store p rs w.
Proof.
  intro H. revert w.
  induction H as [t | mail password | r | mail password | p Hp IH];
    intro w; unfold settles_store.
  - cbn. destruct (AuthClient.getCurrentUser (me_reply rs)) as [u | e]; cbn.
    + right; left. repeat split.
    + now left.
  - cbn. destruct (AuthClient.login (login_reply rs)) as [r | e]; cbn.
    + right; left. repeat split.
    + now left.
  - unfold verifies; cbn.
    destruct (AuthClient.getCurrentUser (me_reply rs)) as [u | e]; cbn.
    + right; right. exists r, u. split; [reflexivity | now left].
    + now left.
  - cbn. destruct (AuthClient.signup (signup_reply rs)) as [m | e]; cbn;
      right; left; repeat split.
  - rewrite (proj1 (SessionInvariant.resume_inside rs Hp)),
            SessionInvariant.run_sync_inside,
            (SessionInvariant.verifies_inside rs Hp).
    cbn [fst]. exact (IH w).
Qed.

Lemma store_consistent_start (stored : option string) :
  store_consistent stored (start stored).
Proof.
  unfold store_consistent, store_agrees, stored_or_verified, start.
  destruct stored as [t | ]; cbn.
  - destruct (truthy t) eqn:Ht; cbn.
    + split; [constructor; [exact (fl_hydrate t) | constructor] | ].
      split; [split | ].
      * intros t' H; exact H.
      * intros s H _; exact H.
      * intros s H. now right.
    + split; [constructor | ]. split; [split | ].
      * discriminate.
      * intros s [= <-] Hs. congruence.
      * intros s H. now right.
  - split; [constructor | ]. split; [split | ]; discriminate.
Qed.

Lemma store_consistent_step (stored : option string) (c c' : Config)
      (i : input) :
  store_consistent stored c -> step c i = Some c' ->
  store_consistent stored c'.
Proof.
  unfold store_consistent, store_agrees, stored_or_verified, verified_token.
  intros (Hpool & (Htok & Hsto) & Hver).
  destruct i as [op | n rs]; cbn.
  - intros [= <-].
    destruct op as [mail password | mail password | ]; cbn.
    + split; [ | split; [split | ]]; try assumption.
      apply Forall_app; split; [exact Hpool | ].
      constructor; [exact (fl_login mail password) | constructor].
    + split; [ | split; [split | ]]; try assumption.
      apply Forall_app; split; [exact Hpool | ].
      constructor; [exact (fl_signup mail password) | constructor].
    + rewrite app_nil_r. split; [exact Hpool | ].
      split; [split | ]; discriminate.
  - destruct (nth_error (pool c) n) as [p | ] eqn:Hn; [ | discriminate].
    intros [= <-].
    pose proof (SessionInvariant.nth_error_split_pool _ _ Hn) as Hsplit.
    assert (Hp : in_flight p).
    { rewrite Forall_forall in Hpool. apply Hpool.
      eapply nth_error_In; eassumption. }
    destruct (SessionInvariant.in_flight_settles rs (world c) Hp)
      as [Hnew _].
    pose proof (in_flight_settles_store rs (world c) Hp) as Hshape.
    unfold settles_store in Hshape.
    set (r := run_sync (resume rs p) (world c)) in *.
    cbn [absorb world verified pool].
    split.
    { rewrite Hsplit in Hpool.
      apply Forall_app in Hpool as [Hbefore Hafter].
      inversion Hafter; subst.
      apply Forall_app; split; [assumption | ].
      apply Forall_app; split; assumption. }
    destruct Hshape as [-> | [(Ht & _ & Hs) | (lr & u & -> & Hin)]].
    + split; [split | ]; discriminate.
    + rewrite Ht, Hs. split; [split; assumption | ].
      intros s H. destruct (Hver s H) as [Hv | Hst]; [left | now right].
      apply in_or_app. now right.
    + cbn. split; [split | ].
      * intros t H; exact H.
      * intros s H _; exact H.
      * intros s [= <-]. left. apply in_or_app. now left.
Qed.

Lemma store_consistent_steps (stored : option string) (inputs : list input)
      (c c' : Config) :
  store_consistent stored c -> steps c inputs = Some c' ->
  store_consistent stored c'.
Proof.
  revert c. induction inputs as [ | i inputs IH]; intros c Hc; cbn.
  - now intros [= <-].
  - destruct (step c i) as [c1 | ] eqn:Hstep; [ | discriminate].
    apply IH. eapply store_consistent_step; eassumption.
Qed.

(** X1: in every configuration a render can show, the first render
    included, a token held in memory is the entry in durable storage.
    From the mount effect on, the two agree both ways: a stored non-empty
    entry is the held token. In the first render they do not: the token
    is still null whatever storage holds. *)
Theorem token_is_stored_entry :
  forall c : Config,
    (observable c -> held_is_stored (world c))
    /\ (reachable c -> store_agrees (world c))
    /\ (forall stored, c = first_render stored ->
          token (world c) = None /\ storage (world c) = stored).
Proof.
  intro c.
  assert (Hreach : reachable c -> store_agrees (world c)).
  { intros (stored & inputs & Hsteps).
    exact (proj1 (proj2 (store_consistent_steps
                           inputs (store_consistent_start stored) Hsteps))). }
  split; [ | split; [exact Hreach | ]].
  - intros [(stored & ->) | Hc].
    + intros t Ht. discriminate Ht.
    + exact (proj1 (Hreach Hc)).
  - intros stored ->. split; reflexivity.
Qed.

Lemma token_is_stored_entry_witness :
  store_agrees (world (start (Some "tok-1")))
  /\ held_is_stored (world (first_render (Some "tok-1")))
  /\ token (world (first_render (Some "tok-1"))) = None.
Proof.
  split; [ | split].
  - apply (proj1 (proj2 (token_is_stored_entry (start (Some "tok-1"))))).
    exists (Some "tok-1"), []. reflexivity.
  - apply (proj1 (token_is_stored_entry (first_render (Some "tok-1")))).
    left. exists (Some "tok-1"). reflexivity.
  - exact (proj1 (proj2 (proj2 (token_is_stored_entry
                                   (first_render (Some "tok-1"))))
                        (Some "tok-1") eq_refl)).
Defined.

(** The mount effect leads from the first render to the start. *)
Lemma start_after_first_render (stored : option string) :
  start stored
  = absorb (first_render stored) [] [] []
           (run_sync mount (world (first_render stored))).
Proof. reflexivity. Qed.

(** Before the mount effect a stored token is not held yet. *)
Lemma first_render_disagrees :
  ~ store_agrees (world (first_render (Some "tok-1"))).
Proof.
  intros [_ H]. specialize (H "tok-1" eq_refl eq_refl). discriminate H.
Qed.

(** X2: whatever the interleaving, durable storage holds either the entry
    it held when the application started or a token that a successful
    [getCurrentUser] has verified. *)
Theorem storage_holds_verified :
  forall (stored : option string) (inputs : list input) (c : Config),
    steps (start stored) inputs = Some c ->
    forall s, storage (world c) = Some s ->
              verified_token s c \/ stored = Some s.
Proof.
  intros stored inputs c Hsteps.
  exact (proj2 (proj2 (store_consistent_steps
                         inputs (store_consistent_start stored) Hsteps))).
Qed.

Lemma storage_holds_verified_witness :
  verified_token "tok-1"
    {| world := committed granted alice; verified := ["tok-1"]; pool := [] |}
  \/ None = Some "tok-1".
Proof.
  apply (@storage_holds_verified
           None [Invoke (Login "alice@example.org" "pw");
                 Settle 0 accepts; Settle 0 accepts]
           {| world := committed granted alice; verified := ["tok-1"];
              pool := [] |} eq_refl "tok-1" eq_refl).
Defined.

(** X3: a logout does not cancel a login in flight. When a login is
    waiting for its verification, a logout clears the store, and the
    verification that settles afterwards commits the login all the same:
    the session is authenticated again, with the login's token stored. *)
Theorem logout_does_not_cancel_login :
  forall (c : Config) (n : nat) (r : LoginResponse) (u : User) (rs : replies),
    nth_error (pool c) n = Some (try_catch (login_verify_commit r) login_catch) ->
    AuthClient.getCurrentUser (me_reply rs) = Ok u ->
    exists c1 c2,
      step c (Invoke Logout) = Some c1
      /\ world c1 = cleared
      /\ step c1 (Settle n rs) = Some c2
      /\ world c2 = committed r u.
Proof.
  intros c n r u rs Hn Hme.
  exists {| world := cleared; verified := verified c; pool := pool c ++ [] |}.
  eexists. split; [reflexivity | ]. split; [reflexivity | ].
  unfold step. cbn [pool world]. rewrite app_nil_r, Hn.
  split; [reflexivity | ].
  cbn [world absorb].
  now rewrite (proj1 (proj2 (proj2 (proj2
                (SessionInvariant.login_segments rs cleared "" ""))))
                r u Hme).
Qed.

Lemma logout_does_not_cancel_login_witness :
  exists c2,
    steps (start None)
          [Invoke (Login "alice@example.org" "pw"); Settle 0 accepts;
           Invoke Logout; Settle 0 accepts] = Some c2
    /\ world c2 = committed granted alice.
Proof.
  destruct (@logout_does_not_cancel_login
              {| world := initial None; verified := [];
                 pool := [try_catch (login_verify_commit granted)
                                    login_catch] |}
              0 granted alice accepts eq_refl eq_refl)
    as (c1 & c2 & H1 & _ & H2 & Hw).
  exists c2. split; [ | exact Hw].
  cbn in H1. injection H1 as <-. cbn. exact H2.
Defined.

(** X4: no handler retries or sends anything else than these requests:
    logout sends none; a login sends the login request and, only when it
    succeeded, one [getCurrentUser] for the returned token; a signup sends
    the signup request and, only when it succeeded, the requests of a
    login with the same credentials; the mount effect sends one
    [getCurrentUser] for the stored token when there is one. *)
Theorem requests_sent :
  forall (rs : replies) (w : World) (mail password : string),
    requests (trace (run rs handleLogout w)) = []
    /\ requests (trace (run rs (handleLogin mail password) w))
       = login_requests rs mail password
    /\ requests (trace (run rs (handleSignup mail password) w))
       = signup_requests rs mail password
    /\ requests (trace (run rs mount w)) = mount_requests (storage w).
Proof.
  intros rs w mail password.
  rewrite SessionRuns.run_handleLogout, SessionRuns.run_handleSignup,
          SessionRuns.run_handleLogin, SessionRuns.run_mount.
  unfold signup_requests, login_requests, mount_requests.
  destruct (AuthClient.login (login_reply rs)) as [r | e1];
    destruct (AuthClient.getCurrentUser (me_reply rs)) as [u | e2];
    destruct (AuthClient.signup (signup_reply rs)) as [m | e3];
    destruct (storage w) as [t | ]; try destruct (truthy t);
    cbn; repeat split.
Qed.

(** X5: a login overwrites the session: the store it leaves and what it
    returns do not depend on the store it started from, and a login whose
    login call fails leaves the store cleared, so a failed attempt logs
    out a session that was authenticated, and re-throws the error of the
    login call. *)
Theorem login_overwrites_session :
  forall (rs : replies) (mail password : string) (w w' : World),
    final (run rs (handleLogin mail password) w)
    = final (run rs (handleLogin mail password) w')
    /\ outcome (run rs (handleLogin mail password) w)
       = outcome (run rs (handleLogin mail password) w')
    /\ (forall e, AuthClient.login (login_reply rs) = Err e ->
          final (run rs (handleLogin mail password) w) = cleared
          /\ outcome (run rs (handleLogin mail password) w) = Err e).
Proof.
  intros rs mail password w w'.
  rewrite !SessionRuns.run_handleLogin.
  destruct (AuthClient.login (login_reply rs)) as [r | e1];
    destruct (AuthClient.getCurrentUser (me_reply rs)) as [u | e2];
    cbn; repeat split; intros; try discriminate; congruence.
Qed.

Lemma login_overwrites_session_witness :
  final (run refuses_login (handleLogin "alice@example.org" "wrong")
             (committed granted alice)) = cleared
  /\ outcome (run refuses_login (handleLogin "alice@example.org" "wrong")
                  (committed granted alice)) = Err "Invalid credentials".
Proof.
  exact (proj2 (proj2 (@login_overwrites_session
                         refuses_login "alice@example.org" "wrong"
                         (committed granted alice) (initial None)))
               "Invalid credentials" eq_refl).
Defined.

(** X20: a startup verification that settles late acts on the session as
    it has become. When it fails, the store is cleared, also when a login
    has been committed in the meantime; when it succeeds, the user record
    of the stored token replaces the session user and nothing else
    changes, so the session can hold the token of one login and the user
    of another. *)
Theorem startup_verification_settles_late :
  forall (c : Config) (n : nat) (t : string) (rs : replies),
    nth_error (pool c) n = Some (hydrate t) ->
    (forall e, AuthClient.getCurrentUser (me_reply rs) = Err e ->
       exists c', step c (Settle n rs) = Some c' /\ world c' = cleared)
    /\ (forall u, AuthClient.getCurrentUser (me_reply rs) = Ok u ->
          exists c', step c (Settle n rs) = Some c'
                     /\ world c'
                        = apply_action
                            (SetUser (Some {| id := id u;
                                              email := AuthClient.email u |}))
                            (world c)).
Proof.
  intros c n t rs Hn. unfold step. rewrite Hn. split.
  - intros e He. eexists. split; [reflexivity | ].
    cbn. rewrite He. reflexivity.
  - intros u Hu. eexists. split; [reflexivity | ].
    cbn. rewrite Hu. reflexivity.
Qed.

Lemma startup_verification_settles_late_witness :
  exists c',
    steps (start (Some "stale"))
          [Invoke (Login "alice@example.org" "pw"); Settle 1 accepts;
           Settle 1 accepts; Settle 0 refuses_token] = Some c'
    /\ world c' = cleared.
Proof.
  destruct (proj1 (@startup_verification_settles_late
              {| world := committed granted alice; verified := ["tok-1"];
                 pool := [hydrate "stale"] |}
              0 "stale" refuses_token eq_refl) "Invalid token" eq_refl)
    as (c' & Hstep & Hworld).
  exists c'. split; [exact Hstep | exact Hworld].
Defined.

End SessionExtras.

(** ** API wrappers: what they return *)
Module ApiExtras.

Import Contract.

Lemma auth_returns_body (P : Type) (fallback : string) :
  returns_body_of_ok (@AuthClient.after_fetch P fallback).
Proof.
  intros o x. split.
  - destruct o as [m | [okb [data | e]]]; cbn; try discriminate.
    destruct okb; cbn; [ | discriminate].
    intros [= <-]. eexists; eexists. repeat split.
  - intros (response & data & -> & Hok & Hjson & <-).
    cbn. now rewrite Hjson, Hok.
Qed.

Lemma web_returns_body (P : Type) (fallback : string) :
  returns_body_of_ok (@WebApi.after_fetch P fallback).
Proof.
  intros o x. split.
  - destruct o as [m | [okb [data | e]]]; cbn; try discriminate;
      destruct okb; cbn; try discriminate.
    intros [= <-]. eexists; eexists. repeat split.
  - intros (response & data & -> & Hok & Hjson & <-).
    cbn. now rewrite Hok, Hjson.
Qed.

Lemma lib_returns_body (P : Type) (fallback : string) :
  returns_body_of_ok (@LibApi.after_fetch P fallback).
Proof.
  intros o x. split.
  - destruct o as [m | [okb [data | e]]]; cbn; try discriminate;
      destruct okb; cbn; try discriminate.
    intros [= <-]. eexists; eexists. repeat split.
  - intros (response & data & -> & Hok & Hjson & <-).
    cbn. now rewrite Hok, Hjson.
Qed.

(** X6: every wrapper of the three clients returns a value if and only
    if the request completed with a successful response whose body
    parses as JSON, and the value is that body; in particular no wrapper
    returns a value for a failed response, a rejected request or an
    unreadable body. *)
Theorem wrappers_return_body_of_ok :
  forall Doc Docs Results Categorized : Type,
    returns_body_of_ok AuthClient.login
    /\ returns_body_of_ok AuthClient.signup
    /\ returns_body_of_ok AuthClient.getCurrentUser
    /\ returns_body_of_ok (@WebApi.processDocument Doc)
    /\ returns_body_of_ok (@WebApi.getDocuments Docs)
    /\ returns_body_of_ok (@WebApi.searchDocuments Results)
    /\ returns_body_of_ok (@WebApi.getCategorizedFields Categorized)
    /\ returns_body_of_ok (@LibApi.processDocument Doc)
    /\ returns_body_of_ok (@LibApi.getDocuments Docs)
    /\ returns_body_of_ok (@LibApi.searchDocuments Results).
Proof.
  intros. repeat split;
    first [apply auth_returns_body | apply web_returns_body
           | apply lib_returns_body].
Qed.

Lemma auth_shown_unless_list (P : Type) (c : ascii) (fallback : string) :
  shown_unless_list (@AuthClient.after_fetch P (String c fallback)).
Proof.
  split; [ | intro x; reflexivity].
  intros [okb j] [[message | | v] x] Hok Hj Hplain; cbn in Hok, Hj, Hplain;
    subst; try discriminate.
  - eexists; split; reflexivity.
  - destruct v as [ | [ | ] | shown | [ | c' s] | items | props];
      try discriminate; eexists; split; reflexivity.
Qed.

Lemma web_shown_unless_list (P : Type) (c : ascii) (fallback : string) :
  shown_unless_list (@WebApi.after_fetch P (String c fallback)).
Proof.
  split; [ | intro x; reflexivity].
  intros [okb j] [[message | | v] x] Hok Hj Hplain; cbn in Hok, Hj, Hplain;
    subst; try discriminate.
  - eexists; split; reflexivity.
  - destruct v as [ | [ | ] | shown | [ | c' s] | items | props];
      try discriminate; eexists; split; reflexivity.
Qed.

Lemma lib_message_never_empty (P : Type) (c : ascii) (fallback : string) :
  message_never_empty (@LibApi.after_fetch P (String c fallback)).
Proof.
  intros [okb j] Hok; cbn in Hok; subst. eexists; split; reflexivity.
Qed.

(** X7: when the [detail] of a failed response is absent, [null], a
    boolean, a string or an object, the message that a wrapper of the auth
    client or of the dashboard's document client throws is never the empty
    string (an empty or falsy [detail] gives way to the fallback), so the
    page's [error && ...] banner shows it; when [detail] is the empty
    list, which is truthy and whose string form is empty, the message is
    empty and the banner is not shown. The wrappers of [src/lib/api.ts]
    throw a message that is not empty for every failed response. *)
Theorem failure_message_not_empty :
  forall Doc Docs Results Categorized : Type,
    shown_unless_list AuthClient.login
    /\ shown_unless_list AuthClient.signup
    /\ shown_unless_list AuthClient.getCurrentUser
    /\ shown_unless_list (@WebApi.processDocument Doc)
    /\ shown_unless_list (@WebApi.getDocuments Docs)
    /\ shown_unless_list (@WebApi.searchDocuments Results)
    /\ shown_unless_list (@WebApi.getCategorizedFields Categorized)
    /\ message_never_empty (@LibApi.processDocument Doc)
    /\ message_never_empty (@LibApi.getDocuments Docs)
    /\ message_never_empty (@LibApi.searchDocuments Results).
Proof.
  intros. repeat apply conj;
    first [apply auth_shown_unless_list | apply web_shown_unless_list
           | apply lib_message_never_empty].
Qed.

Lemma failure_message_not_empty_witness :
  (exists message,
      AuthClient.login
        (failed (Some "")
                {| AuthClient.user_id := ""; AuthClient.access_token := "" |})
      = Err message /\ truthy message = true)
  /\ AuthClient.login
       (FetchResponse
          {| ok := false;
             json := Ok {| detail := Present (JArray []);
                           payload := {| AuthClient.user_id := "";
                                         AuthClient.access_token := "" |} |} |})
     = Err "".
Proof.
  destruct (proj1 (@failure_message_not_empty unit unit unit unit))
    as [Hshown Hhidden].
  split.
  - exact (Hshown
             {| ok := false;
                json := Ok {| detail := Present (JString "");
                              payload := {| AuthClient.user_id := "";
                                            AuthClient.access_token := "" |} |} |}
             _ eq_refl eq_refl eq_refl).
  - exact (Hhidden {| AuthClient.user_id := "";
                      AuthClient.access_token := "" |}).
Defined.

(** X8: the two copies of the document client differ only on failed
    responses: for a rejected request and for a successful response,
    readable or not, the wrappers of [src/lib/api.ts] and those of
    [dockeeper-web/lib/api.ts] return the same result. *)
Theorem clients_agree_unless_failed :
  forall (P : Type) (o : fetch_outcome P),
    not_failed o ->
    LibApi.processDocument o = WebApi.processDocument o
    /\ LibApi.getDocuments o = WebApi.getDocuments o
    /\ LibApi.searchDocuments o = WebApi.searchDocuments o.
Proof.
  intros P o H. destruct o as [m | response]; [repeat split | ].
  specialize (H response eq_refl).
  unfold LibApi.processDocument, LibApi.getDocuments, LibApi.searchDocuments,
         WebApi.processDocument, WebApi.getDocuments, WebApi.searchDocuments,
         LibApi.after_fetch, WebApi.after_fetch.
  rewrite H. repeat split.
Qed.

Lemma clients_agree_unless_failed_witness :
  LibApi.getDocuments (@FetchRejected (list nat) "Failed to fetch")
  = WebApi.getDocuments (@FetchRejected (list nat) "Failed to fetch").
Proof.
  refine (proj1 (proj2 (@clients_agree_unless_failed
                          (list nat) (FetchRejected "Failed to fetch") _))).
  intros response H. discriminate H.
Defined.

End ApiExtras.

(** ** Dashboard rows: nothing lost, nothing invented *)
Module DashboardExtras.

Import Dashboard.

Lemma or_empty_insertion_order (o : maybe_object) :
  or_empty o = insertion_order o.
Proof. destruct o; reflexivity. Qed.

(** X9: with an empty search text and whatever the field names are, the
    displayed rows are a rearrangement of the rows the specification
    lists: every field of every document gives exactly one row, and the
    number of rows is the total number of fields. *)
Theorem displayedRows_permutation :
  forall (documents : list Document.t) (searchResults : list SearchResult.t),
    Permutation (displayedRows "" searchResults documents)
                (spec_rows documents)
    /\ length (displayedRows "" searchResults documents)
       = list_sum (map (fun doc => length (field_names doc)) documents).
Proof.
  intros documents searchResults. unfold displayedRows, spec_rows. cbn.
  induction documents as [ | doc documents [IHp IHl]]; cbn.
  - split; [apply Permutation_refl | reflexivity].
  - split.
    + apply Permutation_app; [ | exact IHp].
      apply Permutation_map. rewrite or_empty_insertion_order.
      apply DashboardProperties.Object_entries_perm.
    + rewrite length_app, IHl. f_equal.
      unfold field_names. rewrite !length_map, or_empty_insertion_order.
      apply Permutation_length, DashboardProperties.Object_entries_perm.
Qed.

End DashboardExtras.

(** ** Category cards *)
Module CategoryProperties.

Import Dashboard Categories.

Lemma own_with_key (key k : string) (v : bool) (o : list (string * bool)) :
  own k (with_key key v o) = if String.eqb k key then Some v else own k o.
Proof.
  induction o as [ | [k0 w] o IH]; cbn.
  - reflexivity.
  - destruct (String.eqb_spec key k0) as [-> | Hkey]; cbn.
    + destruct (String.eqb k k0); reflexivity.
    + rewrite IH.
      destruct (String.eqb_spec k k0) as [-> | Hk]; [ | reflexivity].
      destruct (String.eqb_spec k0 key) as [<- | _]; [congruence | reflexivity].
Qed.

Lemma read_toggle (category k : string) (o : list (string * bool)) :
  read (toggleCategory category o) k
  = if String.eqb k category then negb (read o category) else read o k.
Proof.
  unfold toggleCategory, read at 1. rewrite own_with_key.
  destruct (String.eqb k category); reflexivity.
Qed.

(** X10: clicking a card header flips the expansion of that category and
    of no other, also for a category never clicked before and for a name
    that [Object.prototype] defines; clicking twice restores the expansion
    of every category. *)
Theorem toggleCategory_flips :
  forall (category k : string) (prev : list (string * bool)),
    isExpanded (toggleCategory category prev) k
    = (if String.eqb k category then negb (isExpanded prev category)
       else isExpanded prev k)
    /\ isExpanded (toggleCategory category (toggleCategory category prev)) k
       = isExpanded prev k.
Proof.
  intros category k prev. unfold isExpanded.
  rewrite !orb_false_r, !read_toggle, String.eqb_refl.
  destruct (String.eqb_spec k category) as [-> | _];
    [rewrite negb_involutive | ]; split; reflexivity.
Qed.

Lemma Object_keys_length (fields : list (string * string)) :
  length (Object_keys fields) = length fields.
Proof.
  unfold Object_keys. rewrite length_map.
  apply Permutation_length, DashboardProperties.Object_entries_perm.
Qed.

(** X11: a card accounts for every field of its category. Its count is
    the number of fields; collapsed, it shows the first three names at
    most and a "+N more" chip exactly when there are more than three, the
    N being the number of names not shown; expanded, it lists every field
    once. *)
Theorem card_accounts_for_fields :
  forall (expandedCategories : list (string * bool)) (category : string)
         (fields : list (string * string)),
    let c := card expandedCategories category fields in
    fieldCount c = length fields
    /\ (expanded c = false ->
          chips c = firstn 3 (Object_keys fields)
          /\ length (chips c) + hidden c = length fields
          /\ (more c = None <-> length fields <= 3)
          /\ rows c = [])
    /\ (expanded c = true ->
          Permutation (rows c) fields /\ chips c = [] /\ more c = None).
Proof.
  intros expandedCategories category fields c. subst c.
  unfold hidden, card. cbn [fieldCount expanded chips more rows].
  pose proof (Object_keys_length fields) as Hlen.
  assert (Hlen' : length (Object_entries fields) = length fields)
    by (apply Permutation_length, DashboardProperties.Object_entries_perm).
  split; [exact Hlen | ].
  destruct (isExpanded expandedCategories category); cbn [negb andb]; split;
    try discriminate; intros _.
  - split; [apply DashboardProperties.Object_entries_perm | ].
    split; reflexivity.
  - split; [unfold Object_keys; symmetry; apply firstn_map | ].
    rewrite length_map, length_firstn, Hlen, Hlen'.
    destruct (Nat.ltb_spec 3 (length fields)) as [Hlt | Hle].
    + repeat split; try lia. discriminate.
    + repeat split; lia.
Qed.

Lemma card_accounts_for_fields_witness :
  chips (card [] "Personal Information"
              [("Name", "X"); ("Email", "y@z.com"); ("DOB", "2000-01-01");
               ("Phone", "555-0100"); ("City", "Oslo")])
  = ["Name"; "Email"; "DOB"]
  /\ more (card [] "Personal Information"
                [("Name", "X"); ("Email", "y@z.com"); ("DOB", "2000-01-01");
                 ("Phone", "555-0100"); ("City", "Oslo")]) = Some 2.
Proof.
  destruct (proj1 (proj2 (@card_accounts_for_fields
             [] "Personal Information"
             [("Name", "X"); ("Email", "y@z.com"); ("DOB", "2000-01-01");
              ("Phone", "555-0100"); ("City", "Oslo")])) eq_refl)
    as (Hchips & _ & _ & _).
  split; [exact Hchips | reflexivity].
Defined.

End CategoryProperties.

(** ** The search URL *)
Module UrlProperties.

Import Url.






Lemma decode_encode_byte (c : ascii) (s : string) :
  percent_decode (encode_byte c ++ s)
  = match percent_decode s with
    | Some d => Some (String c d)
    | None => None
    end.
Proof.
  destruct c as [[] [] [] [] [] [] [] []]; reflexivity.
Qed.

Lemma decode_encode (s : string) :
  percent_decode (encodeURIComponent s) = Some s.
Proof.
  induction s as [ | c s IH]; cbn; [reflexivity | ].
  now rewrite decode_encode_byte, IH.
Qed.

Lemma append_cancel (p a b : string) : (p ++ a = p ++ b)%string -> a = b.
Proof.
  induction p as [ | c p IH]; cbn; [auto | ].
  intros [= H]. now apply IH.
Qed.

(** X13: the encoding loses nothing: two different search texts give two
    different search URLs. *)
Theorem searchUrl_distinguishes_queries :
  forall API_URL query1 query2 : string,
    query1 <> query2 -> searchUrl API_URL query1 <> searchUrl API_URL query2.
Proof.
  intros API_URL query1 query2 Hneq Heq. apply Hneq.
  unfold searchUrl in Heq.
  apply append_cancel, append_cancel in Heq.
  apply (f_equal percent_decode) in Heq.
  rewrite !decode_encode in Heq. now injection Heq.
Qed.

Lemma searchUrl_distinguishes_queries_witness :
  searchUrl "http://localhost:8000" "a&b"
  <> searchUrl "http://localhost:8000" "a b".
Proof.
  apply searchUrl_distinguishes_queries. discriminate.
Defined.

End UrlProperties.

(** ** Page handlers *)
Module PageProperties.

Import Dashboard Categories Page PageSamples.

(** X14: a handler of the page sends a request only when the session
    holds a usable token. With a null or empty token each of the four
    handlers sends nothing, reports "Not authenticated" and leaves the
    data as it is; with a token, its first request carries that token. *)
Theorem token_guards_requests :
  forall (token : option string) (rs : api_replies) (s : State) (file : File),
    (usable token = None ->
       fetchDocuments token rs s = (setError "Not authenticated" s, [])
       /\ handleFileUpload file token rs s
          = (setError "Not authenticated" s, [])
       /\ handleSearch token rs s = (setError "Not authenticated" s, [])
       /\ fetchCategorizedFields token rs s
          = (setError "Not authenticated" s, []))
    /\ (forall t, usable token = Some t ->
          hd_error (snd (fetchDocuments token rs s)) = Some (ReqDocuments t)
          /\ hd_error (snd (handleFileUpload file token rs s))
             = Some (ReqProcess file t)
          /\ hd_error (snd (handleSearch token rs s))
             = Some (ReqSearch (searchTerm s) t)
          /\ hd_error (snd (fetchCategorizedFields token rs s))
             = Some (ReqCategorize t)).
Proof.
  intros token rs s file.
  unfold fetchDocuments, handleFileUpload, handleSearch,
         fetchCategorizedFields, fetchDocuments.
  split.
  - intros ->. repeat split.
  - intros t ->.
    destruct (WebApi.getDocuments (documents_reply rs));
      destruct (WebApi.processDocument (process_reply rs));
      destruct (WebApi.searchDocuments (search_reply rs));
      destruct (WebApi.getCategorizedFields (categorize_reply rs));
      repeat split.
Qed.

Lemma token_guards_requests_witness :
  handleSearch (Some "") serves searching
  = (setError "Not authenticated" searching, [])
  /\ hd_error (snd (handleFileUpload scan (Some "tok-1") serves searching))
     = Some (ReqProcess scan "tok-1").
Proof.
  split.
  - exact (proj1 (proj2 (proj2 (proj1 (@token_guards_requests
             (Some "") serves searching scan) eq_refl)))).
  - exact (proj1 (proj2 (proj2 (@token_guards_requests
             (Some "tok-1") serves searching scan) "tok-1" eq_refl))).
Defined.

(** X15: an upload is followed by a reload of the list, and only when it
    succeeded. A refused upload sends nothing more, shows the error and
    leaves the list as it is; an accepted upload sends the list request
    next and ends exactly as [fetchDocuments] does: the document the
    upload returned is not used, the list is what the reload returned,
    and an error shown before stays. *)
Theorem upload_then_reload :
  forall (file : File) (token : option string) (t : string)
         (rs : api_replies) (s : State),
    usable token = Some t ->
    (forall message,
        WebApi.processDocument (process_reply rs) = Err message ->
        handleFileUpload file token rs s
        = (setError message s, [ReqProcess file t]))
    /\ (forall doc,
          WebApi.processDocument (process_reply rs) = Ok doc ->
          fst (handleFileUpload file token rs s)
          = fst (fetchDocuments token rs s)
          /\ (forall data,
                WebApi.getDocuments (documents_reply rs) = Ok data ->
                handleFileUpload file token rs s
                = (setDocuments data s, [ReqProcess file t; ReqDocuments t]))
          /\ (forall message,
                WebApi.getDocuments (documents_reply rs) = Err message ->
                handleFileUpload file token rs s
                = (setError message s, [ReqProcess file t; ReqDocuments t]))).
Proof.
  intros file token t rs s Htoken.
  unfold handleFileUpload, fetchDocuments. rewrite Htoken.
  split.
  - intros message ->. reflexivity.
  - intros doc ->. split; [reflexivity | ].
    split; intros x ->; reflexivity.
Qed.

Lemma upload_then_reload_witness :
  handleFileUpload scan (Some "tok-1") serves searching
  = (setDocuments example_documents searching,
     [ReqProcess scan "tok-1"; ReqDocuments "tok-1"])
  /\ handleFileUpload scan (Some "tok-1") refuses_upload searching
     = (setError "Only PDF files are accepted" searching,
        [ReqProcess scan "tok-1"]).
Proof.
  split.
  - exact (proj1 (proj2 (proj2 (@upload_then_reload
             scan (Some "tok-1") "tok-1" serves searching eq_refl)
             bare_document eq_refl)) example_documents eq_refl).
  - exact (proj1 (@upload_then_reload
             scan (Some "tok-1") "tok-1" refuses_upload searching eq_refl)
             "Only PDF files are accepted" eq_refl).
Defined.

(** X16: what a search changes on the search tab. When the search
    succeeds and the search text is not empty, the tab shows exactly the
    rows the backend returned; when the search text is empty the request
    is sent all the same, with an empty query, and the tab keeps showing
    the fields of the documents; when the search fails the tab is
    unchanged and the error is shown. A success leaves an earlier error
    in place. *)
Theorem search_updates_tab :
  forall (token : option string) (t : string) (rs : api_replies) (s : State),
    usable token = Some t ->
    snd (handleSearch token rs s) = [ReqSearch (searchTerm s) t]
    /\ (forall data,
          WebApi.searchDocuments (search_reply rs) = Ok data ->
          error (fst (handleSearch token rs s)) = error s
          /\ (truthy (searchTerm s) = true ->
                searchTab (fst (handleSearch token rs s)) = data)
          /\ (searchTerm s = "" ->
                searchTab (fst (handleSearch token rs s))
                = displayedRows "" [] (documents s)))
    /\ (forall message,
          WebApi.searchDocuments (search_reply rs) = Err message ->
          searchTab (fst (handleSearch token rs s)) = searchTab s
          /\ error (fst (handleSearch token rs s)) = message).
Proof.
  intros token t rs s Htoken. unfold handleSearch. rewrite Htoken.
  split; [destruct (WebApi.searchDocuments (search_reply rs)); reflexivity | ].
  split.
  - intros data ->. unfold searchTab, displayedRows.
    cbn [fst setSearchResults searchTerm searchResults documents error].
    split; [reflexivity | ]. split.
    + intros ->. reflexivity.
    + intros ->. reflexivity.
  - intros message ->. split; reflexivity.
Qed.

Lemma search_updates_tab_witness :
  searchTab (fst (handleSearch (Some "tok-1") serves searching))
  = example_rows
  /\ error (fst (handleSearch (Some "tok-1") serves searching))
     = "Failed to categorize fields".
Proof.
  destruct (proj1 (proj2 (@search_updates_tab
              (Some "tok-1") "tok-1" serves searching eq_refl))
              example_rows eq_refl) as (Herr & Htab & _).
  split; [exact (Htab eq_refl) | exact Herr].
Defined.

Lemma submit_loading (attempt : AuthContext.run_result unit) (s : State) :
  isLoading (fst (submit attempt s)) = false
  /\ same_data s (fst (submit attempt s)).
Proof.
  unfold submit, settled, submitting, same_data.
  destruct (AuthContext.outcome attempt); cbn; repeat split.
Qed.

Lemma submitting_state (s : State) :
  isLoading (submitting s) = true
  /\ error (submitting s) = ""
  /\ same_data s (submitting s).
Proof. unfold submitting, same_data. cbn. repeat split. Qed.

(** X17: the login form, from the click to the banner. From the click
    until the attempt settles the form is loading, with the error
    cleared, and it stays so when a request never settles; once the
    attempt has settled the form is not loading. The session handlers do
    not touch the data of the page. When the session ends authenticated
    no error is shown. When the login call or the verification that
    follows it fails, the session ends cleared and the error of the page
    is the message that call threw; the banner shows it when it is not
    empty: for a string [detail] it shows the detail, or the fallback of
    the failing call when the detail is empty or absent, and for a
    [detail] that is the empty list it shows nothing. *)
Theorem login_form_outcome :
  forall (rs : AuthContext.replies) (mail password : string) (s : State)
         (w : AuthContext.World),
    let r := handleLoginSubmit rs mail password s w in
    (isLoading (submitting s) = true
     /\ error (submitting s) = ""
     /\ same_data s (submitting s))
    /\ fst r = settled (AuthContext.run
                          rs (AuthContext.handleLogin mail password) w)
                       (submitting s)
    /\ isLoading (fst r) = false
    /\ same_data s (fst r)
    /\ (AuthContext.isAuthenticated (snd r) = true -> banner (fst r) = None)
    /\ (forall message,
          AuthClient.login (AuthContext.login_reply rs) = Err message ->
          snd r = AuthContext.cleared /\ error (fst r) = message)
    /\ (forall lr message,
          AuthClient.login (AuthContext.login_reply rs) = Ok lr ->
          AuthClient.getCurrentUser (AuthContext.me_reply rs) = Err message ->
          snd r = AuthContext.cleared /\ error (fst r) = message)
    /\ (forall d x,
          AuthContext.login_reply rs = failed d x ->
          snd r = AuthContext.cleared
          /\ banner (fst r) = Some (or_else d "Login failed"))
    /\ (forall lr d x,
          AuthClient.login (AuthContext.login_reply rs) = Ok lr ->
          AuthContext.me_reply rs = failed d x ->
          snd r = AuthContext.cleared
          /\ banner (fst r) = Some (or_else d "Failed to get user info"))
    /\ (forall x,
          AuthContext.login_reply rs = refused_with_list x ->
          snd r = AuthContext.cleared
          /\ error (fst r) = ""
          /\ banner (fst r) = None).
Proof.
  intros rs mail password s w r. subst r. unfold handleLoginSubmit.
  split; [apply submitting_state | ]. split; [reflexivity | ].
  split; [apply submit_loading | ]. split; [apply submit_loading | ].
  unfold submit, settled, submitting, banner.
  rewrite SessionRuns.run_handleLogin.
  split; [ | split; [ | split; [ | split; [ | split]]]].
  - destruct (AuthClient.login (AuthContext.login_reply rs)) as [lr | e1];
      [destruct (AuthClient.getCurrentUser (AuthContext.me_reply rs))
        as [u | e2] | ]; cbn; try discriminate; reflexivity.
  - intros message ->. split; reflexivity.
  - intros lr message -> ->. split; reflexivity.
  - intros d x ->. cbn. split; [reflexivity | ].
    destruct d as [[ | c d] | ]; reflexivity.
  - intros lr d x -> ->. cbn. split; [reflexivity | ].
    destruct d as [[ | c d] | ]; reflexivity.
  - intros x ->. cbn. repeat split.
Qed.

Lemma login_form_outcome_witness :
  banner (fst (handleLoginSubmit Samples.refuses_login "alice@example.org"
                                 "wrong" searching
                                 (AuthContext.committed Samples.granted
                                                        Samples.alice)))
  = Some "Invalid credentials"
  /\ banner (fst (handleLoginSubmit Samples.accepts "alice@example.org"
                                    "pw" searching (AuthContext.initial None)))
     = None
  /\ error (fst (handleLoginSubmit refuses_with_list "alice@example.org"
                                   "pw" searching (AuthContext.initial None)))
     = "".
Proof.
  pose proof (@login_form_outcome
                Samples.refuses_login "alice@example.org" "wrong" searching
                (AuthContext.committed Samples.granted Samples.alice))
    as (_ & _ & _ & _ & _ & _ & _ & Hrefused & _).
  pose proof (@login_form_outcome
                Samples.accepts "alice@example.org" "pw" searching
                (AuthContext.initial None))
    as (_ & _ & _ & _ & Hauth & _).
  pose proof (@login_form_outcome
                refuses_with_list "alice@example.org" "pw" searching
                (AuthContext.initial None))
    as (_ & _ & _ & _ & _ & Hthrown & _ & _ & _ & Hlist).
  split; [exact (proj2 (Hrefused (Some "Invalid credentials")
                                 Samples.granted eq_refl)) | ].
  split; [exact (Hauth eq_refl) | ].
  exact (proj1 (proj2 (Hlist Samples.granted eq_refl))).
Defined.

(** X18: the signup form. When the signup call fails the session is left
    exactly as it was, the form ends not loading and the error of the
    page is the message the call threw: for a string [detail] the banner
    shows the detail, or "Signup failed" when it is empty or absent, and
    for a [detail] that is the empty list the message is empty and no
    banner is shown. After an accepted signup the form ends as the login
    form does with the same credentials. *)
Theorem signup_form_outcome :
  forall (rs : AuthContext.replies) (mail password : string) (s : State)
         (w : AuthContext.World),
    (forall message,
        AuthClient.signup (AuthContext.signup_reply rs) = Err message ->
        snd (handleSignupSubmit rs mail password s w) = w
        /\ error (fst (handleSignupSubmit rs mail password s w)) = message
        /\ isLoading (fst (handleSignupSubmit rs mail password s w)) = false)
    /\ (forall d x,
          AuthContext.signup_reply rs = failed d x ->
          snd (handleSignupSubmit rs mail password s w) = w
          /\ banner (fst (handleSignupSubmit rs mail password s w))
             = Some (or_else d "Signup failed")
          /\ isLoading (fst (handleSignupSubmit rs mail password s w)) = false)
    /\ (forall x,
          AuthContext.signup_reply rs = refused_with_list x ->
          snd (handleSignupSubmit rs mail password s w) = w
          /\ error (fst (handleSignupSubmit rs mail password s w)) = ""
          /\ banner (fst (handleSignupSubmit rs mail password s w)) = None)
    /\ (forall m,
          AuthClient.signup (AuthContext.signup_reply rs) = Ok m ->
          handleSignupSubmit rs mail password s w
          = handleLoginSubmit rs mail password s w).
Proof.
  intros rs mail password s w.
  unfold handleSignupSubmit, handleLoginSubmit, submit, settled, submitting,
         banner.
  rewrite SessionRuns.run_handleSignup.
  split; [ | split; [ | split]].
  - intros message ->. repeat split.
  - intros d x ->. cbn. split; [reflexivity | ].
    destruct d as [[ | c d] | ]; split; reflexivity.
  - intros x ->. cbn. repeat split.
  - intros m ->. reflexivity.
Qed.

Lemma signup_form_outcome_witness :
  snd (handleSignupSubmit Samples.refuses_signup "alice@example.org" "pw"
                          searching (AuthContext.initial None))
  = AuthContext.initial None
  /\ handleSignupSubmit Samples.accepts "alice@example.org" "pw"
                        searching (AuthContext.initial None)
     = handleLoginSubmit Samples.accepts "alice@example.org" "pw"
                         searching (AuthContext.initial None)
  /\ banner (fst (handleSignupSubmit refuses_with_list "alice@example.org"
                                     "pw" searching (AuthContext.initial None)))
     = None.
Proof.
  pose proof (@signup_form_outcome
                Samples.refuses_signup "alice@example.org" "pw" searching
                (AuthContext.initial None)) as (_ & Hrefused & _).
  pose proof (@signup_form_outcome
                Samples.accepts "alice@example.org" "pw" searching
                (AuthContext.initial None)) as (_ & _ & _ & Haccepted).
  pose proof (@signup_form_outcome
                refuses_with_list "alice@example.org" "pw" searching
                (AuthContext.initial None)) as (_ & _ & Hlist & _).
  split; [exact (proj1 (Hrefused (Some "Email already registered")
                                 {| AuthClient.message := "" |} eq_refl)) | ].
  split; [exact (Haccepted {| AuthClient.message := "created" |} eq_refl) | ].
  exact (proj2 (proj2 (Hlist {| AuthClient.message := "" |} eq_refl))).
Defined.

(** X19: the page loads its data with the session token only. In every
    reachable configuration, a request that the effect on
    [[isAuthenticated, token]] sends carries the session token, and that
    token is verified or under startup verification; at startup with a
    stored token the two requests are sent before any verification has
    succeeded. *)
Theorem page_loads_with_session_token :
  forall (rs : api_replies) (s : State),
    (forall c q,
        AuthContext.reachable c ->
        In q (loadOnAuth (AuthContext.world c) rs s) ->
        exists t,
          AuthContext.token (AuthContext.world c) = Some t
          /\ (q = ReqDocuments t \/ q = ReqCategorize t)
          /\ (AuthContext.verified_token t c \/ AuthContext.hydrating t c))
    /\ (forall t,
          truthy t = true ->
          loadOnAuth (AuthContext.world (AuthContext.start (Some t))) rs s
          = [ReqDocuments t; ReqCategorize t]
          /\ AuthContext.verified (AuthContext.start (Some t)) = []).
Proof.
  intros rs s. split.
  - intros c q (stored & inputs & Hsteps) Hq.
    destruct (SessionInvariant.consistent_steps
                inputs (SessionInvariant.consistent_start stored) Hsteps)
      as (_ & _ & Htoken).
    unfold loadOnAuth, fetchDocuments, fetchCategorizedFields in Hq.
    destruct (AuthContext.isAuthenticated (AuthContext.world c));
      [ | contradiction].
    destruct (AuthContext.token (AuthContext.world c)) as [t | ] eqn:Ht;
      cbn in Hq; [ | contradiction].
    destruct (truthy t); cbn in Hq; [ | contradiction].
    exists t. split; [reflexivity | ].
    split; [ | exact (Htoken t Ht)].
    destruct (WebApi.getDocuments (documents_reply rs));
      destruct (WebApi.getCategorizedFields (categorize_reply rs));
      cbn in Hq; destruct Hq as [<- | [<- | []]]; auto.
  - intros t Ht. unfold AuthContext.start, loadOnAuth, fetchDocuments,
                        fetchCategorizedFields. cbn. rewrite Ht. cbn.
    rewrite Ht.
    destruct (WebApi.getDocuments (documents_reply rs));
      destruct (WebApi.getCategorizedFields (categorize_reply rs));
      split; reflexivity.
Qed.

Lemma page_loads_with_session_token_witness :
  loadOnAuth (AuthContext.world (AuthContext.start (Some "tok-1")))
             serves Page.initial
  = [ReqDocuments "tok-1"; ReqCategorize "tok-1"].
Proof.
  exact (proj1 (proj2 (@page_loads_with_session_token serves Page.initial)
                      "tok-1" eq_refl)).
Defined.

End PageProperties.
